(** * neural_server.py: the heuristic combat policy and the connection handler

    A shallow embedding of [heuristic_policy], [handle_connection] and the
    accept loop of [main], together with the properties of the decision
    service that are stated about them. *)

From Stdlib Require Import ZArith List String Ascii Bool Lia.
From Stdlib Require Import Strings.Byte.
From Stdlib Require Import Floats.SpecFloat.
From Stdlib Require Import Sorting.Permutation.
Import ListNotations.

Local Open Scope Z_scope.
Local Open Scope string_scope.
Local Open Scope list_scope.

(** ** Python values and exceptions *)

(** What [json.loads] can produce: [None], [bool], [int], [float], [str],
    [list] and [dict].  A dict is kept as its list of items; a lookup takes the
    first item with the key. *)
#[warnings="-register-all"] Inductive value : Type :=
| VNone
| VBool (b : bool)
| VInt (n : Z)
| VFloat (f : spec_float)
| VStr (s : string)
| VList (items : list value)
| VDict (fields : list (string * value)).

(** The exception classes that occur.  [KeyboardInterrupt] and [SystemExit]
    derive from [BaseException] only; every other class derives from
    [Exception]. *)
Inductive exn : Type :=
| AttributeError
| TypeError
| KeyError
| ValueError
| OSError
| KeyboardInterrupt
| SystemExit
| UserError (name : string).

Definition is_Exception (e : exn) : bool :=
  match e with
  | KeyboardInterrupt | SystemExit => false
  | _ => true
  end.

Inductive result (A : Type) : Type :=
| Ret (a : A)
| Raise (e : exn).
Arguments Ret {A} a.
Arguments Raise {A} e.

Definition rbind {A B : Type} (r : result A) (k : A -> result B) : result B :=
  match r with
  | Ret a => k a
  | Raise e => Raise e
  end.

Notation "x <-- r ;; k" := (rbind r (fun x => k))
  (at level 61, r at next level, right associativity).

(** ** Numbers

    A Python [int] is unbounded, a [float] is a binary64.  Python compares an
    int with a float by their exact values, so both are read as extended
    dyadic numbers [m * 2^e]. *)
Inductive xreal : Type :=
| XNaN
| XInf (negative : bool)
| XFin (m e : Z).

Definition xreal_of_float (f : spec_float) : xreal :=
  match f with
  | S754_zero _ => XFin 0 0
  | S754_infinity s => XInf s
  | S754_nan => XNaN
  | S754_finite s m e => XFin (if s then Zneg m else Zpos m) e
  end.

(** [bool] is a subclass of [int]: [True] is 1 and [False] is 0. *)
Definition as_number (v : value) : option xreal :=
  match v with
  | VBool b => Some (XFin (Z.b2z b) 0)
  | VInt n => Some (XFin n 0)
  | VFloat f => Some (xreal_of_float f)
  | _ => None
  end.

Definition xcompare (a b : xreal) : option comparison :=
  match a, b with
  | XNaN, _ | _, XNaN => None
  | XInf s1, XInf s2 =>
      Some (match s1, s2 with
            | true, false => Lt
            | false, true => Gt
            | _, _ => Eq
            end)
  | XInf s, XFin _ _ => Some (if s then Lt else Gt)
  | XFin _ _, XInf s => Some (if s then Gt else Lt)
  | XFin m1 e1, XFin m2 e2 =>
      let e := Z.min e1 e2 in
      Some (Z.compare (m1 * 2 ^ (e1 - e)) (m2 * 2 ^ (e2 - e)))
  end.

Inductive cmp_op : Type := OpLt | OpLe | OpGt | OpGe.

(** Every ordering comparison with a NaN is false. *)
Definition holds (op : cmp_op) (c : option comparison) : bool :=
  match op, c with
  | OpLt, Some Lt => true
  | OpLe, Some (Lt | Eq) => true
  | OpGt, Some Gt => true
  | OpGe, Some (Gt | Eq) => true
  | _, _ => false
  end.

(** [v op k] for an int literal [k]: defined on numbers, [TypeError] on
    [None], [str], [list] and [dict]. *)
Definition py_cmp (op : cmp_op) (v : value) (k : Z) : result bool :=
  match as_number v with
  | Some x => Ret (holds op (xcompare x (XFin k 0)))
  | None => Raise TypeError
  end.

Definition py_abs (v : value) : result value :=
  match v with
  | VBool b => Ret (VInt (Z.b2z b))
  | VInt n => Ret (VInt (Z.abs n))
  | VFloat f => Ret (VFloat (SFabs f))
  | _ => Raise TypeError
  end.

(** ** Containers *)

Fixpoint lookup (key : string) (fields : list (string * value)) : option value :=
  match fields with
  | [] => None
  | (k, v) :: rest => if String.eqb k key then Some v else lookup key rest
  end.

Definition field_or (fields : list (string * value)) (key : string) (default : value)
  : value :=
  match lookup key fields with
  | Some v => v
  | None => default
  end.

(** [d.get(key, default)]: only a dict has the method. *)
Definition py_get (d : value) (key : string) (default : value) : result value :=
  match d with
  | VDict fields => Ret (field_or fields key default)
  | _ => Raise AttributeError
  end.

(** [d[key]] for a string key: [KeyError] on a dict without the key,
    [TypeError] on everything that is not a dict. *)
Definition py_getitem (d : value) (key : string) : result value :=
  match d with
  | VDict fields =>
      match lookup key fields with
      | Some v => Ret v
      | None => Raise KeyError
      end
  | _ => Raise TypeError
  end.

Fixpoint chars (s : string) : list value :=
  match s with
  | EmptyString => []
  | String c rest => VStr (String c EmptyString) :: chars rest
  end.

(** [for e in v]: the items of a list, the keys of a dict, the characters of
    a str; nothing else is iterable. *)
Definition py_iter (v : value) : result (list value) :=
  match v with
  | VList items => Ret items
  | VDict fields => Ret (map (fun kv => VStr (fst kv)) fields)
  | VStr s => Ret (chars s)
  | _ => Raise TypeError
  end.

Definition is_None (v : value) : bool :=
  match v with
  | VNone => true
  | _ => false
  end.

(** ** Decisions *)

Inductive action : Type :=
| attack
| strafe_left
| strafe_right
| flee
| use_item
| idle.

Record decision : Type := Decision { act : action; confidence : spec_float }.

(** A float literal [n/100] denotes the binary64 nearest to it, which is what
    the correctly rounded quotient of the two integers gives. *)
Definition float_of_Z (n : Z) : spec_float := binary_normalize 53 1024 n 0 false.

Definition hundredths (n : Z) : spec_float :=
  SFdiv 53 1024 (float_of_Z n) (float_of_Z 100).

Definition f0_5 : spec_float := Eval vm_compute in hundredths 50.
Definition f0_6 : spec_float := Eval vm_compute in hundredths 60.
Definition f0_7 : spec_float := Eval vm_compute in hundredths 70.
Definition f0_75 : spec_float := Eval vm_compute in hundredths 75.
Definition f0_85 : spec_float := Eval vm_compute in hundredths 85.
Definition f0_95 : spec_float := Eval vm_compute in hundredths 95.
Definition f0_99 : spec_float := Eval vm_compute in hundredths 99.

(** ** The policy engine: [heuristic_policy]

    The evaluation records which fields of [hostile] it reads, in order, next
    to its result, so that the reads are part of what can be stated. *)
Definition M (A : Type) : Type := (list string * result A)%type.

Definition ret {A : Type} (a : A) : M A := ([], Ret a).

Definition bind {A B : Type} (m : M A) (k : A -> M B) : M B :=
  match m with
  | (t, Ret a) => let (t', r) := k a in ((t ++ t')%list, r)
  | (t, Raise e) => (t, Raise e)
  end.

Definition lift {A : Type} (r : result A) : M A := ([], r).

Definition hostile_field {A : Type} (key : string) (r : result A) : M A :=
  ([key], r).

Notation "x <- m ;; k" := (bind m (fun x => k))
  (at level 61, m at next level, right associativity).

(** The return statements of [heuristic_policy], in source order, named by
    the rule of the decision chain each one implements. *)
Inductive rule : Type :=
| Rule1 | Rule2 | Rule4 | Rule5 | Rule6 | Rule7 | Rule8 | Rule9.

(** [e.get("distance", 99) < 8] for one element of [all_entities]. *)
Definition entity_near (e : value) : result bool :=
  rbind (py_get e "distance" (VInt 99)) (fun d => py_cmp OpLt d 8).

(** [sum(1 for e in ... if ...)]: the running total over the elements. *)
Fixpoint sum_near (total : Z) (es : list value) : result Z :=
  match es with
  | [] => Ret total
  | e :: rest =>
      rbind (entity_near e) (fun near =>
        sum_near (if near then total + 1 else total) rest)
  end.

Definition count_nearby (all_entities : value) : result Z :=
  rbind (py_iter all_entities) (sum_near 0).

(** [random.choice] over a two-element list, the drawn index given. *)
Definition random_choice (index : bool) (first second : action) : action :=
  if index then second else first.

(** [a and b] on booleans: [b] is evaluated only when [a] is true. *)
Definition and_then (a : bool) (b : result bool) : result bool :=
  if a then b else Ret false.

Definition heuristic_eval (obs : value) (index : bool) : M (rule * decision) :=
  health <- lift (py_get obs "bot_health" (VInt 20)) ;;
  hostile <- lift (py_get obs "nearest_hostile" VNone) ;;
  all_entities <- lift (py_get obs "all_entities" (VList [])) ;;
  low <- lift (py_cmp OpLe health 4) ;;
  if low then ret (Rule1, Decision flee f0_99) else
  if is_None hostile then ret (Rule2, Decision idle f0_95) else
  dist <- hostile_field "distance" (py_getitem hostile "distance") ;;
  raw_angle <- hostile_field "angle" (py_get hostile "angle" (VInt 0)) ;;
  angle <- lift (py_abs raw_angle) ;;
  nearby_count <- lift (count_nearby all_entities) ;;
  swarmed <- lift (and_then (3 <=? nearby_count)%Z (py_cmp OpLt health 15)) ;;
  if swarmed then ret (Rule4, Decision flee f0_85) else
  behind <- lift (py_cmp OpGt angle 90) ;;
  if behind then ret (Rule5, Decision strafe_left f0_7) else
  far <- lift (py_cmp OpGt dist 6) ;;
  if far then ret (Rule6, Decision attack f0_6) else
  close <- lift (rbind (py_cmp OpLe dist 3) (fun c => and_then c (py_cmp OpLt angle 45))) ;;
  if close then ret (Rule7, Decision attack f0_95) else
  mid <- lift (py_cmp OpLe dist 6) ;;
  if mid then ret (Rule8, Decision (random_choice index strafe_left strafe_right) f0_75) else
  ret (Rule9, Decision attack f0_6).

(** What the caller sees. *)
Definition heuristic_policy (obs : value) (index : bool) : result decision :=
  rbind (snd (heuristic_eval obs index)) (fun rd => Ret (snd rd)).

(** The return statement that produced it. *)
Definition fired_rule (obs : value) (index : bool) : result rule :=
  rbind (snd (heuristic_eval obs index)) (fun rd => Ret (fst rd)).

(** The fields of [hostile] read on the way. *)
Definition hostile_reads (obs : value) (index : bool) : list string :=
  fst (heuristic_eval obs index).

(** ** Sockets

    A connection is driven by what its peer and the network do: what each
    successive [conn.recv(4096)] yields, and whether each successive
    [conn.sendall] goes through.  What the handler does to the connection is
    kept as a trace. *)
Definition bytes : Type := list byte.

(** One call of [conn.recv(4096)]: it returns a chunk, raises [OSError]
    (connection reset), or never returns because the peer neither sends nor
    closes.  Once the script is used up the peer has closed, and [recv]
    returns the empty bytes, as it does for an empty chunk. *)
Inductive recv_event : Type :=
| Chunk (chunk : bytes)
| RecvFails
| Stall.

(** In [sendall_script], [false] makes the corresponding call raise
    [OSError]; calls beyond the script succeed. *)
Record peer : Type := Peer {
  recv_script : list recv_event;
  sendall_script : list bool
}.

(** What the handler does, in order: a call of [conn.sendall] (recorded
    whether or not it goes through), a [log.warning], [conn.close()]. *)
Inductive io_event : Type :=
| Sendall (payload : bytes)
| LogWarning (e : exn)
| Close.

Record conn : Type := Conn {
  to_recv : list recv_event;
  to_send : list bool;
  trace : list io_event
}.

Definition connect (p : peer) : conn :=
  Conn (recv_script p) (sendall_script p) [].

(** How a piece of code that uses the connection ends: normally, with an
    exception, or never. *)
Inductive outcome (A : Type) : Type :=
| Done (a : A)
| Raised (e : exn)
| Blocked.
Arguments Done {A} a.
Arguments Raised {A} e.
Arguments Blocked {A}.

Definition IO (A : Type) : Type := conn -> outcome A * conn.

Definition io_ret {A : Type} (a : A) : IO A := fun c => (Done a, c).

Definition io_bind {A B : Type} (m : IO A) (k : A -> IO B) : IO B :=
  fun c =>
    match m c with
    | (Done a, c') => k a c'
    | (Raised e, c') => (Raised e, c')
    | (Blocked, c') => (Blocked, c')
    end.

Notation "x <~ m ;; k" := (io_bind m (fun x => k))
  (at level 61, m at next level, right associativity).
Notation "m ;;; k" := (io_bind m (fun _ => k))
  (at level 61, right associativity).

Definition pure {A : Type} (r : result A) : IO A :=
  fun c =>
    match r with
    | Ret a => (Done a, c)
    | Raise e => (Raised e, c)
    end.

(** A library call that fails with one fixed exception class. *)
Definition or_raise {A : Type} (e : exn) (o : option A) : result A :=
  match o with
  | Some a => Ret a
  | None => Raise e
  end.

(** [try: body  except Exception as e: handler(e)]. *)
Definition try_except {A : Type} (body : IO A) (handler : exn -> IO A) : IO A :=
  fun c =>
    match body c with
    | (Raised e, c') => if is_Exception e then handler e c' else (Raised e, c')
    | other => other
    end.

(** [try: body  finally: cleanup].  An exception of [cleanup] replaces what
    [body] ended with; a [body] that never ends never reaches [cleanup]. *)
Definition try_finally {A : Type} (body : IO A) (cleanup : IO unit) : IO A :=
  fun c =>
    match body c with
    | (Blocked, c') => (Blocked, c')
    | (ended, c') =>
        match cleanup c' with
        | (Done _, c'') => (ended, c'')
        | (Raised e, c'') => (Raised e, c'')
        | (Blocked, c'') => (Blocked, c'')
        end
    end.

Definition emit (ev : io_event) (c : conn) : conn :=
  Conn (to_recv c) (to_send c) (trace c ++ [ev]).

Definition sendall (payload : bytes) : IO unit :=
  fun c =>
    let c' := emit (Sendall payload) (Conn (to_recv c) (tl (to_send c)) (trace c)) in
    match to_send c with
    | false :: _ => (Raised OSError, c')
    | _ => (Done tt, c')
    end.

Definition close : IO unit := fun c => (Done tt, emit Close c).

Definition log_warning (e : exn) : IO unit := fun c => (Done tt, emit (LogWarning e) c).

(** ** The connection handler: [handle_connection] *)

Definition newline : byte := x0a.

(** The test that ends the loop: a newline in [data], or [len(data) > 8192]. *)
Definition stop_reading (data : bytes) : bool :=
  existsb (Byte.eqb newline) data || (8192 <? Z.of_nat (List.length data))%Z.

(** The [while True] loop, by the calls of [recv] that are still to come. *)
Fixpoint read_loop (script : list recv_event) (data : bytes)
  : outcome bytes * list recv_event :=
  match script with
  | [] => (Done data, [])
  | Chunk [] :: rest => (Done data, rest)
  | Chunk chunk :: rest =>
      let data' := (data ++ chunk)%list in
      if stop_reading data' then (Done data', rest) else read_loop rest data'
  | RecvFails :: rest => (Raised OSError, rest)
  | Stall :: _ => (Blocked, script)
  end.

Definition recv_all : IO bytes :=
  fun c =>
    let (r, rest) := read_loop (to_recv c) [] in
    (r, Conn rest (to_send c) (trace c)).

Definition quoted (s : string) : bytes :=
  (x22 :: list_byte_of_string s ++ [x22])%list.

(** The bytes literal of the [except] branch: the record with its two keys
    and no spaces, then a newline. *)
Definition fallback_response : bytes :=
  (list_byte_of_string "{" ++ quoted "action" ++ list_byte_of_string ":"
   ++ quoted "idle" ++ list_byte_of_string "," ++ quoted "confidence"
   ++ list_byte_of_string ":0.5}" ++ [newline])%list.

Definition is_empty (data : bytes) : bool :=
  match data with
  | [] => true
  | _ => false
  end.

(** The library calls the handler makes, for a policy that returns an [A]
    ([heuristic_policy] returns a [decision]).  [None] stands for the call
    raising: [bytes.decode] and [json.loads] a subclass of [ValueError],
    [json.dumps] a [TypeError].  Another error derived from [Exception] that
    one of them raises ([RecursionError] on deeply nested input) is reported
    under the same class: the handler treats them alike and only the class
    named in the warning differs. *)
Record library (A : Type) : Type := Library {
  bytes_decode : bytes -> option string;
  str_strip : string -> string;
  json_loads : string -> option value;
  json_dumps : A -> option string;
  str_encode : string -> bytes
}.
Arguments bytes_decode {A} _ _.
Arguments str_strip {A} _ _.
Arguments json_loads {A} _ _.
Arguments json_dumps {A} _ _.
Arguments str_encode {A} _ _.

Section Handler.

Variable A : Type.
Variable lib : library A.
Variable policy_fn : value -> result A.

(** The argument of the [sendall] of the [try] body, which is evaluated
    before the call: decode and parse the request, ask the policy, encode
    its answer as one line. *)
Definition reply_for (data : bytes) : result bytes :=
  text <-- or_raise ValueError (bytes_decode lib data) ;;
  obs <-- or_raise ValueError (json_loads lib (str_strip lib text)) ;;
  action <-- policy_fn obs ;;
  line <-- or_raise TypeError (json_dumps lib action) ;;
  Ret (str_encode lib (line ++ String "010" EmptyString)%string).

Definition handle_connection : IO unit :=
  try_finally
    (try_except
       (data <~ recv_all ;;
        if is_empty data then io_ret tt else
        payload <~ pure (reply_for data) ;;
        sendall payload)
       (fun e => log_warning e ;;; sendall fallback_response))
    close.

(** One connection from accept to the end of its handler: how the handler
    ended and what it did to the connection. *)
Definition serve (p : peer) : outcome unit * list io_event :=
  let (r, c) := handle_connection (connect p) in (r, trace c).

(** ** The accept loop of [main] *)

(** The [while True] loop over the connections that arrive, numbered in
    the order [accept] returns them.  It ends only by an exception or by
    never returning: inside a handler, or in [accept] once nothing more
    arrives. *)
Inductive loop_end : Type :=
| WaitingInAccept
| StuckInHandler
| LoopRaised (e : exn).

Fixpoint accept_loop (pending : list peer) (index : nat)
  : list (nat * io_event) * loop_end :=
  match pending with
  | [] => ([], WaitingInAccept)
  | p :: rest =>
      let (r, tr) := serve p in
      let log := map (pair index) tr in
      match r with
      | Done _ =>
          let (later, e) := accept_loop rest (S index) in
          ((log ++ later)%list, e)
      | Raised e => (log, LoopRaised e)
      | Blocked => (log, StuckInHandler)
      end
  end.

(** [main] around the loop: [except KeyboardInterrupt] logs and stops,
    anything else goes on to end the process. *)
Inductive server_end : Type :=
| Serving
| Stuck
| Stopped
| Crashed (e : exn).

Definition main (pending : list peer) : list (nat * io_event) * server_end :=
  let (log, e) := accept_loop pending 0 in
  (log,
   match e with
   | WaitingInAccept => Serving
   | StuckInHandler => Stuck
   | LoopRaised KeyboardInterrupt => Stopped
   | LoopRaised e => Crashed e
   end).

(** The ways a request fails before there is anything to send: its bytes
    do not decode, the text does not parse, or the policy raises. *)
Inductive processing_error (data : bytes) : exn -> Prop :=
| undecodable :
    bytes_decode lib data = None ->
    processing_error data ValueError
| unparsable (text : string) :
    bytes_decode lib data = Some text ->
    json_loads lib (str_strip lib text) = None ->
    processing_error data ValueError
| policy_raised (text : string) (obs : value) (e : exn) :
    bytes_decode lib data = Some text ->
    json_loads lib (str_strip lib text) = Some obs ->
    policy_fn obs = Raise e ->
    processing_error data e.

End Handler.

(** What a trace says was written, and how often the stream was closed. *)
Definition sends (tr : list io_event) : list bytes :=
  flat_map (fun ev => match ev with
                      | Sendall payload => [payload]
                      | _ => []
                      end) tr.

Definition closes (tr : list io_event) : nat :=
  List.length (filter (fun ev => match ev with
                                 | Close => true
                                 | _ => false
                                 end) tr).

(** Whether the [i]-th call of [sendall] on a connection goes through, and
    how a handler ends whose last statement is that call. *)
Definition send_ok (p : peer) (i : nat) : bool := nth i (sendall_script p) true.

Definition after_send (p : peer) (i : nat) : outcome unit :=
  if send_ok p i then Done tt else Raised OSError.

Definition writes_succeed (p : peer) : bool :=
  forallb (fun ok => ok) (sendall_script p).

(** The log of connections served strictly one after the other: the whole
    trace of the first, then the whole trace of the second, and so on. *)
Definition in_turn {A : Type} (lib : library A) (policy_fn : value -> result A)
    (index : nat) (served : list peer) : list (nat * io_event) :=
  List.concat
    (map (fun ip => map (pair (fst ip)) (snd (serve A lib policy_fn (snd ip))))
         (combine (seq index (List.length served)) served)).

(** ** Sample requests and library

    A library for decisions that agrees with Python's on the request texts
    used below: [{}] parses to the empty record and nothing else parses;
    ASCII whitespace is stripped; a decision is written the way [json.dumps]
    writes the two-key record. *)
Definition action_name (a : action) : string :=
  match a with
  | attack => "attack"
  | strafe_left => "strafe_left"
  | strafe_right => "strafe_right"
  | flee => "flee"
  | use_item => "use_item"
  | idle => "idle"
  end.

Definition is_space (c : ascii) : bool :=
  let n := nat_of_ascii c in
  ((9 <=? n) && (n <=? 13) || (28 <=? n) && (n <=? 32))%nat.

Fixpoint lstrip (s : string) : string :=
  match s with
  | String c rest => if is_space c then lstrip rest else s
  | EmptyString => s
  end.

Fixpoint rstrip (s : string) : string :=
  match s with
  | String c rest =>
      match rstrip rest with
      | EmptyString => if is_space c then EmptyString else String c EmptyString
      | kept => String c kept
      end
  | EmptyString => s
  end.

Definition in_quotes (s : string) : string :=
  String "034" (s ++ String "034" EmptyString)%string.

(** The shortest decimal that reads back as the float, for the literals of
    the program. *)
Definition confidence_text (f : spec_float) : option string :=
  if SFeqb f f0_5 then Some "0.5"
  else if SFeqb f f0_6 then Some "0.6"
  else if SFeqb f f0_7 then Some "0.7"
  else if SFeqb f f0_75 then Some "0.75"
  else if SFeqb f f0_85 then Some "0.85"
  else if SFeqb f f0_95 then Some "0.95"
  else if SFeqb f f0_99 then Some "0.99"
  else None.

Definition decision_text (d : decision) : option string :=
  match confidence_text (confidence d) with
  | Some c =>
      Some ("{" ++ in_quotes "action" ++ ": " ++ in_quotes (action_name (act d))
            ++ ", " ++ in_quotes "confidence" ++ ": " ++ c ++ "}")%string
  | None => None
  end.

Definition sample_library : library decision :=
  Library decision
    (fun data => Some (string_of_list_byte data))
    (fun text => lstrip (rstrip text))
    (fun text => if String.eqb text "{}" then Some (VDict []) else None)
    decision_text
    list_byte_of_string.

(** The policy [main] passes to the handler, the lambda around
    [heuristic_policy], with the draw of its [random.choice] given. *)
Definition heuristic (index : bool) (obs : value) : result decision :=
  heuristic_policy obs index.

(** A policy that is interrupted while it runs. *)
Definition interrupted (obs : value) : result decision := Raise KeyboardInterrupt.

Definition empty_record_line : bytes := [x7b; x7d; x0a].
Definition not_json_line : bytes := (list_byte_of_string "not json" ++ [x0a])%list.

Definition chunk_4096 : bytes := repeat x61 4096.

Definition obs_distance_7 : value :=
  VDict [("bot_health", VInt 20);
         ("nearest_hostile", VDict [("distance", VInt 7); ("angle", VInt 0)]);
         ("all_entities", VList [])].


(** The line [json.dumps] makes of the decision [idle] with confidence 0.95. *)
Definition idle_line : bytes :=
  list_byte_of_string
    ("{" ++ in_quotes "action" ++ ": " ++ in_quotes "idle" ++ ", "
     ++ in_quotes "confidence" ++ ": 0.95}")%string
  ++ [newline].

(** A swarm of three measured entities, with and without an entity that
    has no [distance] among them. *)
Definition obs_swarm_mixed : value :=
  VDict [("bot_health", VInt 10);
         ("nearest_hostile", VDict [("distance", VInt 2)]);
         ("all_entities",
          VList [VDict [("distance", VInt 1)]; VDict [];
                 VDict [("distance", VInt 2)]; VDict [("distance", VInt 3)]])].

Definition obs_swarm_measured : value :=
  VDict [("bot_health", VInt 10);
         ("nearest_hostile", VDict [("distance", VInt 2)]);
         ("all_entities",
          VList [VDict [("distance", VInt 1)];
                 VDict [("distance", VInt 2)]; VDict [("distance", VInt 3)]])].

(** ** Observations as the data model describes them *)

Definition is_number (v : value) : bool :=
  match as_number v with
  | Some _ => true
  | None => false
  end.

(** A hostile is absent, or a record with a numeric [distance] and an [angle]
    that is numeric when it is there. *)
Definition well_formed_hostile (hostile : value) : bool :=
  match hostile with
  | VNone => true
  | VDict fields =>
      match lookup "distance" fields with
      | Some d => is_number d && is_number (field_or fields "angle" (VInt 0))
      | None => false
      end
  | _ => false
  end.

Definition well_formed_entity (e : value) : bool :=
  match e with
  | VDict fields => is_number (field_or fields "distance" (VInt 99))
  | _ => false
  end.

Definition well_formed_obs (obs : value) : bool :=
  match obs with
  | VDict fields =>
      is_number (field_or fields "bot_health" (VInt 20))
      && well_formed_hostile (field_or fields "nearest_hostile" VNone)
      && match field_or fields "all_entities" (VList []) with
         | VList es => forallb well_formed_entity es
         | _ => false
         end
  | _ => false
  end.

(** The entities that count as nearby, as the decision chain words it: those
    whose [distance] field is present and strictly less than 8. *)
Definition distance_present_below_8 (e : value) : bool :=
  match e with
  | VDict fields =>
      match lookup "distance" fields with
      | Some d =>
          match as_number d with
          | Some x => holds OpLt (xcompare x (XFin 8 0))
          | None => false
          end
      | None => false
      end
  | _ => false
  end.

Definition lacks_distance (e : value) : bool :=
  match e with
  | VDict fields =>
      match lookup "distance" fields with
      | Some _ => false
      | None => true
      end
  | _ => false
  end.

(** ** The decision chain on integers

    What the chain of return statements comes to when [bot_health], the
    hostile's [distance] and [angle] are ints and [nearby] entities are
    counted: plain integer arithmetic, with no test left for the last two
    returns. *)
Definition decision_table (health dist angle nearby : Z) (index : bool) : decision :=
  if (health <=? 4)%Z then Decision flee f0_99
  else if (3 <=? nearby)%Z && (health <? 15)%Z then Decision flee f0_85
  else if (Z.abs angle >? 90)%Z then Decision strafe_left f0_7
  else if (dist >? 6)%Z then Decision attack f0_6
  else if (dist <=? 3)%Z && (Z.abs angle <? 45)%Z then Decision attack f0_95
  else Decision (random_choice index strafe_left strafe_right) f0_75.

(** The exception classes [heuristic_policy] raises. *)
Definition policy_error (e : exn) : bool :=
  match e with
  | AttributeError | TypeError | KeyError => true
  | _ => false
  end.

Definition is_record (v : value) : bool :=
  match v with
  | VDict _ => true
  | _ => false
  end.

Definition not_KeyError (e : exn) : bool :=
  match e with
  | KeyError => false
  | _ => true
  end.

(** What [-x] and [x] are for an int or a float [x]. *)
Definition opposite (v w : value) : Prop :=
  (exists n, v = VInt n /\ w = VInt (- n))
  \/ (exists f, v = VFloat f /\ w = VFloat (SFopp f)).

(** The sample library with one more request text: [[]] parses to the empty
    list. *)
Definition list_library : library decision :=
  Library decision
    (bytes_decode sample_library)
    (str_strip sample_library)
    (fun text => if String.eqb text "[]" then Some (VList [])
                 else json_loads sample_library text)
    (json_dumps sample_library)
    (str_encode sample_library).

Definition empty_list_line : bytes := [x5b; x5d; x0a].

Definition obs_unmeasured_behind : value :=
  VDict [("nearest_hostile", VDict [("distance", VStr "near"); ("angle", VInt (-120))])].

Definition obs_mid_range : value :=
  VDict [("nearest_hostile", VDict [("distance", VInt 5); ("angle", VInt 60)])].

(** ** Traces and peers *)

Definition warnings (tr : list io_event) : nat :=
  List.length (filter (fun ev => match ev with
                                 | LogWarning _ => true
                                 | _ => false
                                 end) tr).

(** A peer that never leaves the handler waiting in [recv]. *)
Definition never_stalls (p : peer) : bool :=
  forallb (fun ev => match ev with
                     | Stall => false
                     | _ => true
                     end) (recv_script p).

(** ** Start-up: [load_vpt_model] and the choice of the policy in [main] *)

(** [load_vpt_model], by how the body of its [try] ends (the imports, the
    download of the weights, the move to the GPU): the model on success,
    [None] when the body raises an error derived from [Exception]. *)
Definition load_vpt_model {Model : Type} (attempt : result Model)
  : result (option Model) :=
  match attempt with
  | Ret model => Ret (Some model)
  | Raise e => if is_Exception e then Ret None else Raise e
  end.

Inductive model_choice : Type := ChoseHeuristic | ChoseVpt.

(** The first lines of [main]: the model is loaded only for [--model vpt],
    and the policy is the lambda around [heuristic_policy] either way. *)
Definition choose_policy {Model : Type} (choice : model_choice)
    (attempt : result Model) (index : bool)
  : result (value -> result decision) :=
  model <-- match choice with
            | ChoseVpt => load_vpt_model attempt
            | ChoseHeuristic => Ret None
            end ;;
  Ret (fun obs => heuristic_policy obs index).

(** [main] from its first line: the start-up, then the accept loop (the
    set-up of the listening socket in between is taken to succeed). *)
Definition run {Model : Type} (lib : library decision) (choice : model_choice)
    (attempt : result Model) (index : bool) (pending : list peer)
  : result (list (nat * io_event) * server_end) :=
  policy <-- choose_policy choice attempt index ;;
  Ret (main decision lib policy pending).

(** * Properties *)

(** ** Comparisons *)

Lemma py_cmp_int (op : cmp_op) (n k : Z) :
  py_cmp op (VInt n) k
  = Ret (match op with
         | OpLt => n <? k
         | OpLe => n <=? k
         | OpGt => n >? k
         | OpGe => n >=? k
         end)%Z.
Proof.
  unfold py_cmp; cbn. rewrite !Z.mul_1_r.
  unfold Z.ltb, Z.leb, Z.gtb, Z.geb.
  destruct op, (n ?= k)%Z; reflexivity.
Qed.


Lemma py_cmp_number (op : cmp_op) (v : value) (k : Z) :
  is_number v = true -> exists b, py_cmp op v k = Ret b.
Proof.
  unfold is_number, py_cmp. destruct (as_number v); [eauto | discriminate].
Qed.

Lemma gt_excludes_le (v : value) (k : Z) :
  py_cmp OpGt v k = Ret true -> py_cmp OpLe v k = Ret false.
Proof.
  unfold py_cmp. destruct (as_number v) as [x|]; [|discriminate].
  intros H. injection H as H. f_equal.
  destruct (xcompare x (XFin k 0)) as [[]|]; cbn in *; congruence.
Qed.


Lemma py_abs_number (v : value) :
  is_number v = true -> exists a, py_abs v = Ret a /\ is_number a = true.
Proof.
  destruct v; cbn; try discriminate; eauto.
Qed.

(** ** The evaluation monad *)

Lemma snd_bind {A B : Type} (m : M A) (k : A -> M B) :
  snd (bind m k) = rbind (snd m) (fun a => snd (k a)).
Proof.
  destruct m as [t [a|e]]; cbn; [destruct (k a)|]; reflexivity.
Qed.

Lemma fst_bind {A B : Type} (m : M A) (k : A -> M B) :
  fst (bind m k)
  = (fst m ++ match snd m with
              | Ret a => fst (k a)
              | Raise _ => []
              end)%list.
Proof.
  destruct m as [t [a|e]]; cbn; [destruct (k a)|rewrite app_nil_r]; reflexivity.
Qed.

(** Walks a hypothesis about the result of [heuristic_eval] down the chain of
    statements, one case per way each statement can end. *)
Ltac eval_inv H :=
  repeat first
    [ progress (rewrite snd_bind in H; cbn [lift hostile_field snd rbind] in H)
    | match type of H with
      | rbind ?r _ = _ => destruct r eqn:?; cbn [rbind] in H; [|discriminate H]
      | snd (if ?b then _ else _) = _ => destruct b eqn:?
      end ];
  cbn [ret snd] in H.

(** Every way [heuristic_eval] returns: the return statement and the decision
    it builds. *)
Lemma eval_returns (obs : value) (index : bool) (r : rule) (d : decision) :
  snd (heuristic_eval obs index) = Ret (r, d) ->
  In (r, d)
     [(Rule1, Decision flee f0_99); (Rule2, Decision idle f0_95);
      (Rule4, Decision flee f0_85); (Rule5, Decision strafe_left f0_7);
      (Rule6, Decision attack f0_6); (Rule7, Decision attack f0_95);
      (Rule8, Decision strafe_left f0_75); (Rule8, Decision strafe_right f0_75);
      (Rule9, Decision attack f0_6)].
Proof.
  intros H. unfold heuristic_eval in H. eval_inv H.
  all: injection H as <- <-.
  all: try destruct index; cbn [random_choice In]; tauto.
Qed.

Ltac eval_fwd :=
  repeat (rewrite snd_bind; cbn [lift hostile_field snd rbind py_get ret]).

Ltac eval_step H :=
  repeat (rewrite snd_bind in H; cbn [lift hostile_field snd rbind py_get ret] in H).

Lemma policy_of_eval (obs : value) (index : bool) (d : decision) :
  heuristic_policy obs index = Ret d ->
  exists r, snd (heuristic_eval obs index) = Ret (r, d).
Proof.
  unfold heuristic_policy.
  destruct (snd (heuristic_eval obs index)) as [[r d']|e]; cbn; [|discriminate].
  intros H; injection H as ->. eauto.
Qed.

Lemma rule_of_eval (obs : value) (index : bool) (r : rule) :
  fired_rule obs index = Ret r ->
  exists d, snd (heuristic_eval obs index) = Ret (r, d).
Proof.
  unfold fired_rule.
  destruct (snd (heuristic_eval obs index)) as [[r' d]|e]; cbn; [|discriminate].
  intros H; injection H as ->. eauto.
Qed.

(** ** Counting the nearby entities *)

Lemma entity_near_spec (e : value) (near : bool) :
  entity_near e = Ret near -> near = distance_present_below_8 e.
Proof.
  unfold entity_near, distance_present_below_8, py_get, field_or.
  destruct e; cbn [rbind]; try discriminate.
  destruct (lookup "distance" fields) as [d|].
  - unfold py_cmp. destruct (as_number d); [|discriminate]. congruence.
  - rewrite py_cmp_int. cbn. congruence.
Qed.

Lemma sum_near_counts (es : list value) :
  forall total n,
    sum_near total es = Ret n ->
    n = (total + Z.of_nat (List.length (filter distance_present_below_8 es)))%Z.
Proof.
  induction es as [|e es IH]; intros total n H; cbn in H.
  - injection H as <-. cbn. lia.
  - destruct (entity_near e) as [near|] eqn:He; cbn [rbind] in H; [|discriminate].
    apply entity_near_spec in He. subst near. apply IH in H.
    cbn [filter]. destruct (distance_present_below_8 e); cbn [List.length]; lia.
Qed.

Lemma sum_near_total (es : list value) :
  forallb well_formed_entity es = true ->
  forall total, exists n, sum_near total es = Ret n.
Proof.
  induction es as [|e es IH]; intros Hwf total; cbn in *; [eauto|].
  apply andb_true_iff in Hwf as [He Hes].
  destruct e; try discriminate. cbn in He.
  unfold entity_near; cbn [py_get rbind].
  destruct (py_cmp_number OpLt _ 8 He) as [near ->]; cbn [rbind].
  apply IH, Hes.
Qed.

Lemma lacking_not_counted (es : list value) :
  Forall (fun e => lacks_distance e = true) es ->
  filter distance_present_below_8 es = [].
Proof.
  induction 1 as [|e es He _ IH]; [reflexivity|].
  cbn [filter]. rewrite IH.
  destruct e; try discriminate. cbn in *.
  destruct (lookup "distance" fields); [discriminate | reflexivity].
Qed.

(** ** The policy engine *)

(** C6: an observation whose [bot_health] is at most 4 gets [flee] with
    confidence 0.99, whatever its other fields hold, a missing or malformed
    [nearest_hostile] included. *)
Theorem low_health_flees
    (fields : list (string * value)) (index : bool) (health : value) :
  lookup "bot_health" fields = Some health ->
  py_cmp OpLe health 4 = Ret true ->
  heuristic_policy (VDict fields) index = Ret (Decision flee f0_99).
Proof.
  intros Hh Hle. unfold heuristic_policy, heuristic_eval. eval_fwd.
  unfold field_or at 1. rewrite Hh, Hle. reflexivity.
Qed.

Lemma low_health_flees_witness :
  heuristic_policy
    (VDict [("bot_health", VInt 3); ("nearest_hostile", VStr "creeper")]) true
  = Ret (Decision flee f0_99).
Proof.
  apply (low_health_flees _ true (VInt 3)); reflexivity.
Defined.

(** C7: with [bot_health] above 4 and no hostile ([nearest_hostile] absent or
    null) the decision is [idle] with confidence 0.95, and no field of the
    hostile is read on the way. *)
Theorem no_hostile_idles (fields : list (string * value)) (index : bool) :
  py_cmp OpGt (field_or fields "bot_health" (VInt 20)) 4 = Ret true ->
  field_or fields "nearest_hostile" VNone = VNone ->
  heuristic_policy (VDict fields) index = Ret (Decision idle f0_95)
  /\ fired_rule (VDict fields) index = Ret Rule2
  /\ hostile_reads (VDict fields) index = [].
Proof.
  intros Hgt Hnone. apply gt_excludes_le in Hgt.
  unfold heuristic_policy, fired_rule, hostile_reads, heuristic_eval.
  rewrite !fst_bind. eval_fwd.
  rewrite Hgt, Hnone. cbn. auto.
Qed.

Lemma no_hostile_idles_witness :
  heuristic_policy
    (VDict [("bot_health", VInt 5); ("nearest_hostile", VNone)]) false
  = Ret (Decision idle f0_95)
  /\ fired_rule
       (VDict [("bot_health", VInt 5); ("nearest_hostile", VNone)]) false
     = Ret Rule2
  /\ hostile_reads
       (VDict [("bot_health", VInt 5); ("nearest_hostile", VNone)]) false
     = [].
Proof.
  apply no_hostile_idles; reflexivity.
Defined.

(** C9: whenever [heuristic_policy] returns, the action is one of [attack],
    [strafe_left], [strafe_right], [flee] and [idle], never [use_item], and
    the confidence is one of 0.6, 0.7, 0.75, 0.85, 0.95 and 0.99, hence in
    the interval (0, 1]. *)
Theorem decision_in_range (obs : value) (index : bool) (d : decision) :
  heuristic_policy obs index = Ret d ->
  In (act d) [attack; strafe_left; strafe_right; flee; idle]
  /\ act d <> use_item
  /\ In (confidence d) [f0_6; f0_7; f0_75; f0_85; f0_95; f0_99]
  /\ py_cmp OpGt (VFloat (confidence d)) 0 = Ret true
  /\ py_cmp OpLe (VFloat (confidence d)) 1 = Ret true.
Proof.
  intros H. apply policy_of_eval in H as [r H]. apply eval_returns in H.
  cbn [In] in H.
  repeat (destruct H as [H|H]; [injection H as <- <-|]); [..|contradiction].
  all: cbn [act confidence In]; repeat split; try discriminate; tauto.
Qed.

Lemma decision_in_range_witness :
  In attack [attack; strafe_left; strafe_right; flee; idle]
  /\ attack <> use_item
  /\ In f0_95 [f0_6; f0_7; f0_75; f0_85; f0_95; f0_99]
  /\ py_cmp OpGt (VFloat f0_95) 0 = Ret true
  /\ py_cmp OpLe (VFloat f0_95) 1 = Ret true.
Proof.
  apply (decision_in_range
           (VDict [("bot_health", VInt 5);
                   ("nearest_hostile",
                    VDict [("distance", VInt 3); ("angle", VInt 10)]);
                   ("all_entities", VList [])])
           false (Decision attack f0_95)).
  reflexivity.
Defined.




(** Entities without [distance] can be left out of the sum, errors of the
    other entities included. *)
Lemma sum_near_drop_lacking (es : list value) :
  forall total,
    sum_near total (filter (fun e => negb (lacks_distance e)) es)
    = sum_near total es.
Proof.
  induction es as [|e es IH]; intros total; [reflexivity|].
  cbn [filter]. destruct (lacks_distance e) eqn:He; cbn [negb].
  - destruct e; try discriminate. cbn in He.
    cbn [sum_near]. unfold entity_near, py_get, field_or.
    destruct (lookup "distance" fields); [discriminate|].
    cbn [rbind]. rewrite py_cmp_int. cbn. apply IH.
  - cbn [sum_near]. destruct (entity_near e); cbn [rbind]; [apply IH | reflexivity].
Qed.

(** C10: an entity without a [distance] field is compared as distance 99 and
    is not counted; whenever [nearby_count] is computed it is the number of
    entities whose [distance] is present and below 8; entities that all lack
    [distance] never make the swarm rule (rule 4) fire; the policy fires
    rule 4 only with at least three entities whose [distance] is present and
    below 8, and, once it has its [nearby_count], exactly when there are
    three of them and [bot_health] is below 15; and leaving the entities
    without [distance] out of [all_entities] changes neither the result of
    the policy nor the rule it returns by. *)
Theorem missing_distance_not_nearby :
  (forall fields,
      lookup "distance" fields = None ->
      py_get (VDict fields) "distance" (VInt 99) = Ret (VInt 99)
      /\ entity_near (VDict fields) = Ret false)
  /\ (forall all_entities n,
         count_nearby all_entities = Ret n ->
         exists es,
           py_iter all_entities = Ret es
           /\ n = Z.of_nat (List.length (filter distance_present_below_8 es)))
  /\ (forall fields index es,
         field_or fields "all_entities" (VList []) = VList es ->
         Forall (fun e => lacks_distance e = true) es ->
         fired_rule (VDict fields) index <> Ret Rule4)
  /\ (forall fields index,
         fired_rule (VDict fields) index = Ret Rule4 ->
         exists es,
           py_iter (field_or fields "all_entities" (VList [])) = Ret es
           /\ (3 <= Z.of_nat (List.length (filter distance_present_below_8 es)))%Z)
  /\ (forall fields hostile_fields index dist angle es n,
         py_cmp OpLe (field_or fields "bot_health" (VInt 20)) 4 = Ret false ->
         field_or fields "nearest_hostile" VNone = VDict hostile_fields ->
         lookup "distance" hostile_fields = Some dist ->
         py_abs (field_or hostile_fields "angle" (VInt 0)) = Ret angle ->
         py_iter (field_or fields "all_entities" (VList [])) = Ret es ->
         count_nearby (field_or fields "all_entities" (VList [])) = Ret n ->
         (fired_rule (VDict fields) index = Ret Rule4
          <-> (3 <= Z.of_nat (List.length (filter distance_present_below_8 es)))%Z
              /\ py_cmp OpLt (field_or fields "bot_health" (VInt 20)) 15 = Ret true))
  /\ (forall fields fields' index es,
         field_or fields "bot_health" (VInt 20)
         = field_or fields' "bot_health" (VInt 20) ->
         field_or fields "nearest_hostile" VNone
         = field_or fields' "nearest_hostile" VNone ->
         field_or fields "all_entities" (VList []) = VList es ->
         field_or fields' "all_entities" (VList [])
         = VList (filter (fun e => negb (lacks_distance e)) es) ->
         heuristic_policy (VDict fields) index = heuristic_policy (VDict fields') index
         /\ fired_rule (VDict fields) index = fired_rule (VDict fields') index).
Proof.
  split; [|split; [|split; [|split; [|split]]]].
  - intros fields H. unfold entity_near, py_get, field_or. rewrite H.
    split; reflexivity.
  - intros all_entities n H. unfold count_nearby in H.
    destruct (py_iter all_entities) as [es|e]; cbn [rbind] in H; [|discriminate].
    exists es. apply sum_near_counts in H. split; [reflexivity | lia].
  - intros fields index es Hall Hlack H.
    apply rule_of_eval in H as [d H].
    unfold heuristic_eval in H. cbn [py_get] in H. rewrite Hall in H.
    eval_inv H; try congruence.
    match goal with
    | Hc : count_nearby (VList es) = Ret ?n, Hs : and_then (3 <=? ?n)%Z _ = Ret true |- _ =>
        unfold count_nearby in Hc; cbn [py_iter rbind] in Hc;
        apply sum_near_counts in Hc;
        rewrite (lacking_not_counted es Hlack) in Hc; cbn in Hc; subst n;
        discriminate Hs
    end.
  - intros fields index H.
    apply rule_of_eval in H as [d H].
    unfold heuristic_eval in H. cbn [py_get] in H.
    eval_inv H; try congruence.
    match goal with
    | Hc : count_nearby _ = Ret ?n, Hs : and_then (3 <=? ?n)%Z _ = Ret true |- _ =>
        unfold count_nearby in Hc;
        destruct (py_iter (field_or fields "all_entities" (VList []))) as [es|e];
        cbn [rbind] in Hc; [|discriminate];
        exists es; apply sum_near_counts in Hc;
        unfold and_then in Hs; destruct (3 <=? n)%Z eqn:Hn; [|discriminate];
        split; [reflexivity | lia]
    end.
  - intros fields hf index dist angle es n Hlow Hhost Hdist Hangle Hiter Hcount.
    assert (Hn : n = Z.of_nat (List.length (filter distance_present_below_8 es))).
    { pose proof Hcount as Hc. unfold count_nearby in Hc. rewrite Hiter in Hc.
      cbn [rbind] in Hc. apply sum_near_counts in Hc. lia. }
    assert (Heval :
      fired_rule (VDict fields) index = Ret Rule4
      <-> and_then (3 <=? n)%Z
            (py_cmp OpLt (field_or fields "bot_health" (VInt 20)) 15) = Ret true).
    { unfold fired_rule, heuristic_eval. eval_fwd.
      rewrite Hlow, Hhost. cbn [rbind is_None]. eval_fwd.
      cbn [py_getitem]. rewrite Hdist. cbn [rbind]. eval_fwd.
      rewrite Hangle. cbn [rbind]. eval_fwd.
      rewrite Hcount. cbn [rbind]. eval_fwd.
      destruct (and_then (3 <=? n)%Z
                  (py_cmp OpLt (field_or fields "bot_health" (VInt 20)) 15))
        as [[]|e]; cbn [rbind].
      - split; reflexivity.
      - split; [|discriminate]. intros H. exfalso.
        set (chain := snd _) in H. assert (Hr := eq_refl chain).
        unfold chain at 2 in Hr. clearbody chain. eval_step Hr.
        repeat first
          [ progress (rewrite snd_bind in Hr; cbn [lift snd rbind] in Hr)
          | match type of Hr with
            | _ = rbind ?r _ => destruct r; cbn [rbind] in Hr
            | _ = snd (if ?b then _ else _) => destruct b
            end ];
          cbn [ret snd] in Hr; subst chain; discriminate H.
      - split; discriminate. }
    rewrite Heval, <- Hn. unfold and_then.
    destruct (3 <=? n)%Z eqn:H3.
    + split; [intros H; split; [lia | exact H] | intros [_ H]; exact H].
    + split; [discriminate | intros [H _]; lia].
  - intros fields fields' index es Hh Hhost Ha Ha'.
    assert (Hc : count_nearby (VList (filter (fun e => negb (lacks_distance e)) es))
                 = count_nearby (VList es))
      by apply sum_near_drop_lacking.
    unfold heuristic_policy, fired_rule, heuristic_eval. cbn [py_get].
    rewrite Hh, Hhost, Ha, Ha'. eval_fwd. rewrite Hc. split; reflexivity.
Qed.

Lemma missing_distance_not_nearby_witness :
  entity_near (VDict [("name", VStr "zombie")]) = Ret false
  /\ (exists es,
         py_iter (VList [VDict [("name", VStr "zombie")]; VDict []; VDict [];
                         VDict [("distance", VInt 5)]]) = Ret es
         /\ 1%Z = Z.of_nat (List.length (filter distance_present_below_8 es)))
  /\ fired_rule
       (VDict [("bot_health", VInt 10);
               ("nearest_hostile", VDict [("distance", VInt 2)]);
               ("all_entities", VList [VDict []; VDict []; VDict []])])
       false <> Ret Rule4
  /\ (exists es,
         py_iter (VList [VDict [("distance", VInt 1)]; VDict [];
                         VDict [("distance", VInt 2)]; VDict [("distance", VInt 3)]])
         = Ret es
         /\ (3 <= Z.of_nat (List.length (filter distance_present_below_8 es)))%Z)
  /\ fired_rule obs_swarm_mixed false = Ret Rule4
  /\ heuristic_policy obs_swarm_mixed false
     = heuristic_policy obs_swarm_measured false.
Proof.
  destruct missing_distance_not_nearby
    as (Hmissing & Hcount & Hswarm & Hneeds & Hexact & Hdrop).
  split; [|split; [|split; [|split; [|split]]]].
  - apply (Hmissing [("name", VStr "zombie")]). reflexivity.
  - apply (Hcount
             (VList [VDict [("name", VStr "zombie")]; VDict []; VDict [];
                     VDict [("distance", VInt 5)]]) 1%Z).
    reflexivity.
  - apply (Hswarm _ false [VDict []; VDict []; VDict []]).
    + reflexivity.
    + repeat constructor.
  - apply (Hneeds
             [("bot_health", VInt 10);
              ("nearest_hostile", VDict [("distance", VInt 2)]);
              ("all_entities",
               VList [VDict [("distance", VInt 1)]; VDict [];
                      VDict [("distance", VInt 2)]; VDict [("distance", VInt 3)]])]
             false).
    reflexivity.
  - apply (proj2 (Hexact
             [("bot_health", VInt 10);
              ("nearest_hostile", VDict [("distance", VInt 2)]);
              ("all_entities",
               VList [VDict [("distance", VInt 1)]; VDict [];
                      VDict [("distance", VInt 2)]; VDict [("distance", VInt 3)]])]
             [("distance", VInt 2)] false (VInt 2) (VInt 0)
             [VDict [("distance", VInt 1)]; VDict [];
              VDict [("distance", VInt 2)]; VDict [("distance", VInt 3)]]
             3%Z eq_refl eq_refl eq_refl eq_refl eq_refl eq_refl)).
    split; [cbn; lia | reflexivity].
  - apply (Hdrop
             [("bot_health", VInt 10);
              ("nearest_hostile", VDict [("distance", VInt 2)]);
              ("all_entities",
               VList [VDict [("distance", VInt 1)]; VDict [];
                      VDict [("distance", VInt 2)]; VDict [("distance", VInt 3)]])]
             [("bot_health", VInt 10);
              ("nearest_hostile", VDict [("distance", VInt 2)]);
              ("all_entities",
               VList [VDict [("distance", VInt 1)];
                      VDict [("distance", VInt 2)]; VDict [("distance", VInt 3)]])]
             false
             [VDict [("distance", VInt 1)]; VDict [];
              VDict [("distance", VInt 2)]; VDict [("distance", VInt 3)]]);
      reflexivity.
Defined.

(** C1, as the code has it: on an observation record that follows the data
    model ([bot_health] a number when present, [nearest_hostile] absent, null
    or a record with a numeric [distance] and an [angle] that is numeric when
    present, [all_entities] a list of records whose [distance] is numeric
    when present) [heuristic_policy] returns a decision and raises
    nothing. *)
Theorem well_formed_obs_decided (obs : value) (index : bool) :
  well_formed_obs obs = true ->
  exists d, heuristic_policy obs index = Ret d.
Proof.
  intros Hwf. destruct obs; try discriminate. cbn [well_formed_obs] in Hwf.
  apply andb_true_iff in Hwf as [Hwf Hents].
  apply andb_true_iff in Hwf as [Hhealth Hhost].
  destruct (field_or fields "all_entities" (VList [])) as [| | | | |es|] eqn:Hall;
    try discriminate.
  unfold heuristic_policy, heuristic_eval. eval_fwd.
  destruct (py_cmp_number OpLe _ 4 Hhealth) as [low ->]; cbn [rbind].
  destruct low; [cbn; eauto|].
  destruct (field_or fields "nearest_hostile" VNone) as [| | | | | |hf] eqn:Hh;
    try discriminate; cbn [is_None]; [cbn; eauto|].
  cbn [well_formed_hostile] in Hhost.
  destruct (lookup "distance" hf) as [dist|] eqn:Hdist; [|discriminate].
  apply andb_true_iff in Hhost as [Hd Ha].
  eval_fwd. cbn [py_getitem]. rewrite Hdist. cbn [rbind]. eval_fwd.
  destruct (py_abs_number _ Ha) as [angle [-> Hangle]]; cbn [rbind]. eval_fwd.
  rewrite Hall. unfold count_nearby; cbn [py_iter rbind].
  destruct (sum_near_total es Hents 0%Z) as [n ->]; cbn [rbind]. eval_fwd.
  destruct (py_cmp_number OpLt _ 15 Hhealth) as [weak Hweak].
  assert (Hsw : exists b, and_then (3 <=? n)%Z
                            (py_cmp OpLt (field_or fields "bot_health" (VInt 20)) 15)
                          = Ret b)
    by (unfold and_then; destruct (3 <=? n)%Z; eauto).
  destruct Hsw as [swarmed ->]; cbn [rbind].
  destruct swarmed; [cbn; eauto|]. eval_fwd.
  destruct (py_cmp_number OpGt _ 90 Hangle) as [behind ->]; cbn [rbind].
  destruct behind; [cbn; eauto|]. eval_fwd.
  destruct (py_cmp_number OpGt _ 6 Hd) as [far ->]; cbn [rbind].
  destruct far; [cbn; eauto|]. eval_fwd.
  destruct (py_cmp_number OpLe _ 3 Hd) as [c ->]; cbn [rbind].
  destruct (py_cmp_number OpLt _ 45 Hangle) as [aimed Haimed].
  assert (Hcl : exists b, and_then c (py_cmp OpLt angle 45) = Ret b)
    by (unfold and_then; destruct c; eauto).
  destruct Hcl as [close ->]; cbn [rbind].
  destruct close; [cbn; eauto|]. eval_fwd.
  destruct (py_cmp_number OpLe _ 6 Hd) as [mid ->]; cbn [rbind].
  destruct mid; cbn; eauto.
Qed.

Lemma well_formed_obs_decided_witness :
  exists d, heuristic_policy obs_distance_7 false = Ret d.
Proof.
  apply (well_formed_obs_decided obs_distance_7 false). reflexivity.
Defined.

(** C1 as stated fails: a non-numeric [bot_health] makes [health <= 4] raise
    [TypeError], and a hostile record without [distance] makes
    [hostile["distance"]] raise [KeyError]. *)
Lemma malformed_obs_raises :
  heuristic_policy (VDict [("bot_health", VStr "full")]) false = Raise TypeError
  /\ heuristic_policy
       (VDict [("bot_health", VInt 20); ("nearest_hostile", VDict [("angle", VInt 10)])])
       false = Raise KeyError.
Proof.
  split; reflexivity.
Qed.

(** ** The read loop *)

(** The fallback line, byte by byte. *)
Lemma fallback_response_bytes :
  fallback_response
  = [x7b; x22; x61; x63; x74; x69; x6f; x6e; x22; x3a; x22; x69; x64; x6c;
     x65; x22; x2c; x22; x63; x6f; x6e; x66; x69; x64; x65; x6e; x63; x65;
     x22; x3a; x30; x2e; x35; x7d; x0a].
Proof. reflexivity. Qed.

Lemma read_loop_raises (script : list recv_event) :
  forall data e rest, read_loop script data = (Raised e, rest) -> e = OSError.
Proof.
  induction script as [|ev script IH]; intros data e rest H; cbn in H.
  - discriminate.
  - destruct ev as [[|b chunk]| |]; try congruence.
    destruct (stop_reading (data ++ b :: chunk)); [discriminate | eauto].
Qed.

Lemma stop_reading_false (data : bytes) :
  stop_reading data = false ->
  existsb (Byte.eqb newline) data = false
  /\ (Z.of_nat (List.length data) <= 8192)%Z.
Proof.
  unfold stop_reading. intros H. apply orb_false_iff in H as [Hn Hl].
  split; [assumption | lia].
Qed.

(** With [recv(4096)] the buffer is at most 8192 bytes before the last chunk
    and at most 4096 bytes longer after it. *)
Lemma read_loop_bound (script : list recv_event) :
  (forall chunk, In (Chunk chunk) script -> (List.length chunk <= 4096)%nat) ->
  forall data0 data rest,
    (Z.of_nat (List.length data0) <= 8192)%Z ->
    read_loop script data0 = (Done data, rest) ->
    (Z.of_nat (List.length data) <= 12288)%Z.
Proof.
  induction script as [|ev script IH]; intros Hchunks data0 data rest Hlen H;
    cbn in H.
  - injection H as <- _. lia.
  - destruct ev as [[|b chunk]| |]; try discriminate.
    + injection H as <- _. lia.
    + assert (Hc : (List.length (b :: chunk) <= 4096)%nat)
        by (apply Hchunks; left; reflexivity).
      destruct (stop_reading (data0 ++ b :: chunk)) eqn:Hstop.
      * injection H as <- _. rewrite length_app. lia.
      * apply stop_reading_false in Hstop as [_ Hstop].
        eapply IH; [|exact Hstop|exact H].
        intros c Hin. apply Hchunks. right. exact Hin.
Qed.

(** The loop takes chunks while the buffer has no newline and is at most
    8192 bytes long, and ends with the first chunk that changes that, or
    when [recv] returns nothing. *)
Lemma read_loop_stops_first (script : list recv_event) :
  forall data0 data rest,
    read_loop script data0 = (Done data, rest) ->
    exists chunks tail,
      script = (map Chunk chunks ++ tail)%list
      /\ Forall (fun chunk => chunk <> []) chunks
      /\ data = (data0 ++ List.concat chunks)%list
      /\ (forall k, (0 < k < List.length chunks)%nat ->
                    stop_reading (data0 ++ List.concat (firstn k chunks)) = false)
      /\ ((chunks <> [] /\ stop_reading data = true /\ tail = rest)
          \/ (tail = [] /\ rest = [])
          \/ tail = Chunk [] :: rest).
Proof.
  induction script as [|ev script IH]; intros data0 data rest H; cbn in H.
  - injection H as <- <-. exists [], []. cbn. rewrite app_nil_r.
    repeat split; auto. intros k Hk; lia.
  - destruct ev as [[|b chunk]| |]; try discriminate.
    + injection H as <- <-. exists [], (Chunk [] :: script). cbn.
      rewrite app_nil_r. repeat split; auto. intros k Hk; lia.
    + destruct (stop_reading (data0 ++ b :: chunk)) eqn:Hstop.
      * injection H as <- <-. exists [b :: chunk], script. cbn.
        rewrite app_nil_r. repeat split.
        -- repeat constructor. discriminate.
        -- intros k Hk; lia.
        -- left. repeat split; [discriminate | exact Hstop].
      * apply IH in H as (chunks & tail & -> & Hne & -> & Hbefore & Hend).
        exists ((b :: chunk) :: chunks), tail.
        split; [reflexivity|].
        split; [constructor; [discriminate | exact Hne]|].
        split; [cbn [List.concat]; now rewrite app_assoc|].
        split.
        -- intros [|k] Hk; [lia|]. cbn [firstn List.concat]. rewrite app_assoc.
           destruct k as [|k]; [cbn; now rewrite app_nil_r|].
           apply Hbefore. cbn in Hk. lia.
        -- destruct Hend as [(Hc & Hs & Ht)|[Ht|Ht]]; auto.
           left. repeat split; [discriminate|exact Hs|exact Ht].
Qed.

(** ** What the policy can raise *)

Lemma py_get_raises (d : value) (key : string) (default : value) (e : exn) :
  py_get d key default = Raise e -> is_Exception e = true.
Proof.
  destruct d; cbn; intros H; try discriminate; injection H as <-; reflexivity.
Qed.

Lemma py_getitem_raises (d : value) (key : string) (e : exn) :
  py_getitem d key = Raise e -> is_Exception e = true.
Proof.
  destruct d; cbn; try destruct (lookup key fields); intros H;
    try discriminate; injection H as <-; reflexivity.
Qed.

Lemma py_cmp_raises (op : cmp_op) (v : value) (k : Z) (e : exn) :
  py_cmp op v k = Raise e -> is_Exception e = true.
Proof.
  unfold py_cmp. destruct (as_number v); intros H; [discriminate|].
  injection H as <-; reflexivity.
Qed.

Lemma py_abs_raises (v : value) (e : exn) :
  py_abs v = Raise e -> is_Exception e = true.
Proof.
  destruct v; cbn; intros H; try discriminate; injection H as <-; reflexivity.
Qed.

Lemma and_then_raises (a : bool) (op : cmp_op) (v : value) (k : Z) (e : exn) :
  and_then a (py_cmp op v k) = Raise e -> is_Exception e = true.
Proof.
  destruct a; cbn; [apply py_cmp_raises | discriminate].
Qed.

Lemma cmp_and_then_raises (op op' : cmp_op) (v v' : value) (k k' : Z) (e : exn) :
  (c <-- py_cmp op v k ;; and_then c (py_cmp op' v' k')) = Raise e ->
  is_Exception e = true.
Proof.
  destruct (py_cmp op v k) as [c|e'] eqn:Hc; cbn [rbind].
  - apply and_then_raises.
  - intros H; injection H as <-. eapply py_cmp_raises, Hc.
Qed.

Lemma entity_near_raises (v : value) (e : exn) :
  entity_near v = Raise e -> is_Exception e = true.
Proof.
  unfold entity_near.
  destruct (py_get v "distance" (VInt 99)) as [d|e'] eqn:Hg; cbn [rbind].
  - apply py_cmp_raises.
  - intros H; injection H as <-. eapply py_get_raises, Hg.
Qed.

Lemma sum_near_raises (es : list value) :
  forall total e, sum_near total es = Raise e -> is_Exception e = true.
Proof.
  induction es as [|v es IH]; intros total e H; cbn in H; [discriminate|].
  destruct (entity_near v) as [near|e'] eqn:Hn; cbn [rbind] in H.
  - eapply IH, H.
  - injection H as <-. eapply entity_near_raises, Hn.
Qed.

Lemma count_nearby_raises (v : value) (e : exn) :
  count_nearby v = Raise e -> is_Exception e = true.
Proof.
  unfold count_nearby. destruct (py_iter v) as [es|e'] eqn:Hi; cbn [rbind].
  - apply sum_near_raises.
  - intros H; injection H as <-.
    destruct v; cbn in Hi; try discriminate; injection Hi as <-; reflexivity.
Qed.

(** Whatever [heuristic_policy] raises derives from [Exception]: it is
    an [AttributeError], a [TypeError] or a [KeyError]. *)
Lemma heuristic_raises_Exception (obs : value) (index : bool) (e : exn) :
  heuristic_policy obs index = Raise e -> is_Exception e = true.
Proof.
  unfold heuristic_policy. intros H.
  assert (He : snd (heuristic_eval obs index) = Raise e)
    by (destruct (snd (heuristic_eval obs index)); cbn in H; congruence).
  clear H. unfold heuristic_eval in He.
  repeat first
    [ progress (rewrite snd_bind in He; cbn [lift hostile_field snd] in He)
    | match type of He with
      | rbind ?r _ = _ =>
          let E := fresh "E" in
          destruct r eqn:E; cbn [rbind] in He;
          [| injection He as <-;
             eauto using py_get_raises, py_getitem_raises, py_cmp_raises,
               py_abs_raises, count_nearby_raises, and_then_raises,
               cmp_and_then_raises ]
      | snd (if ?b then _ else _) = _ => destruct b eqn:?
      end ];
    discriminate He.
Qed.

(** ** The connection handler *)

Lemma send_ok_of_writes_succeed (p : peer) (i : nat) :
  writes_succeed p = true -> send_ok p i = true.
Proof.
  unfold writes_succeed, send_ok. intros H.
  destruct (nth_in_or_default i (sendall_script p) true) as [Hin | ->]; [|reflexivity].
  rewrite forallb_forall in H. apply (H _ Hin).
Qed.

Section HandlerProperties.

Variable A : Type.
Variable lib : library A.
Variable policy_fn : value -> result A.

Local Abbreviation served := (serve A lib policy_fn).
Local Abbreviation reply := (reply_for A lib policy_fn).
Local Abbreviation accepted := (accept_loop A lib policy_fn).
Local Abbreviation failing := (processing_error A lib policy_fn).

(** Every way a handler runs, by what the read loop and the processing of
    the request give. *)
Lemma serve_by_cases (p : peer) :
  served p =
  match fst (read_loop (recv_script p) []) with
  | Blocked => (Blocked, [])
  | Raised _ =>
      (after_send p 0, [LogWarning OSError; Sendall fallback_response; Close])
  | Done [] => (Done tt, [Close])
  | Done data =>
      match reply data with
      | Ret payload =>
          if send_ok p 0 then (Done tt, [Sendall payload; Close])
          else (after_send p 1,
                [Sendall payload; LogWarning OSError;
                 Sendall fallback_response; Close])
      | Raise e =>
          if is_Exception e
          then (after_send p 0, [LogWarning e; Sendall fallback_response; Close])
          else (Raised e, [Close])
      end
  end.
Proof.
  destruct p as [rs ss].
  unfold serve, handle_connection, try_finally, try_except, io_bind,
    recv_all, connect, after_send, send_ok.
  cbn [to_recv to_send trace recv_script sendall_script].
  destruct (read_loop rs []) as [[data|e|] rest] eqn:Hr; cbn [fst].
  - destruct data as [|b data]; [reflexivity|]. cbn [is_empty].
    unfold pure. destruct (reply (b :: data)) as [payload|e].
    + destruct ss as [|[] [|[] ss]]; reflexivity.
    + destruct (is_Exception e); [|reflexivity].
      destruct ss as [|[] ss]; reflexivity.
  - apply read_loop_raises in Hr. subst e.
    destruct ss as [|[] ss]; reflexivity.
  - reflexivity.
Qed.

Lemma processing_error_reply (data : bytes) (e : exn) :
  failing data e -> reply data = Raise e.
Proof.
  unfold reply_for.
  intros [Hd|text Hd Hl|text obs e' Hd Hl Hp]; rewrite Hd; cbn; try reflexivity;
    rewrite Hl; cbn; [reflexivity|]. rewrite Hp. reflexivity.
Qed.

Lemma reply_raises (data : bytes) (e : exn) :
  (forall obs e', policy_fn obs = Raise e' -> is_Exception e' = true) ->
  reply data = Raise e -> is_Exception e = true.
Proof.
  intros Hpol. unfold reply_for.
  destruct (bytes_decode lib data) as [text|]; cbn;
    [|intros H; injection H as <-; reflexivity].
  destruct (json_loads lib (str_strip lib text)) as [obs|]; cbn;
    [|intros H; injection H as <-; reflexivity].
  destruct (policy_fn obs) as [action|e'] eqn:Hp; cbn;
    [|intros H; injection H as <-; eapply Hpol, Hp].
  destruct (json_dumps lib action); cbn; intros H; [discriminate|].
  injection H as <-; reflexivity.
Qed.

Lemma in_turn_cons (index : nat) (p : peer) (handled : list peer) :
  in_turn lib policy_fn index (p :: handled)
  = map (pair index) (snd (served p)) ++ in_turn lib policy_fn (S index) handled.
Proof. reflexivity. Qed.

Lemma serve_contained (p : peer) (e : exn) :
  (forall obs e', policy_fn obs = Raise e' -> is_Exception e' = true) ->
  writes_succeed p = true ->
  fst (served p) <> Raised e.
Proof.
  intros Hpol Hw. rewrite serve_by_cases. unfold after_send.
  rewrite !(send_ok_of_writes_succeed p _ Hw).
  destruct (fst (read_loop (recv_script p) [])) as [[|b data]|e'|];
    cbn; try discriminate.
  destruct (reply (b :: data)) as [payload|e'] eqn:Hr; [discriminate|].
  rewrite (reply_raises _ _ Hpol Hr). discriminate.
Qed.

(** C2, as the code has it: when the policy raises only errors derived
    from [Exception] and the writes to a connection go through,
    [handle_connection] ends without an exception whatever arrives, and so
    the accept loop is not ended by one; an error that does not derive from
    [Exception] ([KeyboardInterrupt], [SystemExit]) raised by the policy
    passes through to the caller once the stream is closed. *)
Theorem errors_contained :
  ((forall obs e, policy_fn obs = Raise e -> is_Exception e = true) ->
   (forall p e, writes_succeed p = true -> fst (served p) <> Raised e)
   /\ (forall pending index e,
          forallb writes_succeed pending = true ->
          snd (accepted pending index) <> LoopRaised e))
  /\ (forall p data e,
         fst (read_loop (recv_script p) []) = Done data ->
         data <> [] ->
         failing data e ->
         is_Exception e = false ->
         served p = (Raised e, [Close])).
Proof.
  split.
  - intros Hpol. split; [intros p e; now apply serve_contained|].
    induction pending as [|p pending IH]; intros index e Hw; cbn.
    + discriminate.
    + cbn in Hw. apply andb_true_iff in Hw as [Hp Hw].
      pose proof (fun e' => serve_contained p e' Hpol Hp) as Hs.
      destruct (served p) as [[[]|e'|] tr]; cbn in *.
      * specialize (IH (S index) e Hw).
        destruct (accepted pending (S index)) as [later le]. exact IH.
      * now destruct (Hs e').
      * discriminate.
  - intros p data e Hread Hne Hfail Hexc.
    rewrite serve_by_cases, Hread.
    destruct data as [|b data]; [contradiction|].
    rewrite (processing_error_reply _ _ Hfail), Hexc. reflexivity.
Qed.

(** C3, as the code has it: when the bytes received do not decode as an
    observation, or decoding or the policy raises an error derived from
    [Exception], the only thing the handler writes is the fallback line;
    and on every path on which the handler ends (reply, fallback or empty
    read) the stream is closed exactly once. *)
Theorem failed_request_gets_fallback (p : peer) :
  (forall data e,
      fst (read_loop (recv_script p) []) = Done data ->
      data <> [] ->
      failing data e ->
      is_Exception e = true ->
      sends (snd (served p)) = [fallback_response])
  /\ (fst (served p) <> Blocked -> closes (snd (served p)) = 1%nat).
Proof.
  split.
  - intros data e Hread Hne Hfail Hexc.
    rewrite serve_by_cases, Hread.
    destruct data as [|b data]; [contradiction|].
    rewrite (processing_error_reply _ _ Hfail), Hexc. reflexivity.
  - rewrite serve_by_cases.
    destruct (fst (read_loop (recv_script p) [])) as [[|b data]|e|];
      cbn; try reflexivity; [|contradiction].
    destruct (reply (b :: data)) as [payload|e].
    + destruct (send_ok p 0); reflexivity.
    + destruct (is_Exception e); reflexivity.
Qed.


(** C5, as the code has it: the read loop takes chunks while the buffer
    holds no newline and at most 8192 bytes, and stops with the first chunk
    after which the buffer holds a newline or more than 8192 bytes, or with
    the first [recv] that returns nothing, be it the first call or a later
    one: the buffer is made of the non-empty chunks before that point and of
    nothing else; with [recv(4096)] the buffer so never exceeds 12288 bytes;
    and when the peer closes before any bytes arrive the handler returns
    having written nothing. *)
Theorem read_stops_after_newline_or_8192 :
  (forall script data rest,
      (forall chunk, In (Chunk chunk) script -> (List.length chunk <= 4096)%nat) ->
      read_loop script [] = (Done data, rest) ->
      (Z.of_nat (List.length data) <= 12288)%Z)
  /\ (forall script data rest,
         read_loop script [] = (Done data, rest) ->
         exists chunks tail,
           script = map Chunk chunks ++ tail
           /\ Forall (fun chunk => chunk <> []) chunks
           /\ data = List.concat chunks
           /\ (forall k, (0 < k < List.length chunks)%nat ->
                         stop_reading (List.concat (firstn k chunks)) = false)
           /\ ((chunks <> [] /\ stop_reading data = true /\ tail = rest)
               \/ (tail = [] /\ rest = [])
               \/ tail = Chunk [] :: rest))
  /\ (forall p,
         recv_script p = [] \/ (exists rest, recv_script p = Chunk [] :: rest) ->
         served p = (Done tt, [Close])).
Proof.
  split; [|split].
  - intros script data rest Hchunks H.
    apply (read_loop_bound script Hchunks [] data rest); [cbn; lia | exact H].
  - intros script data rest H. exact (read_loop_stops_first script [] data rest H).
  - intros p [H|[rest H]]; rewrite serve_by_cases, H; reflexivity.
Qed.

End HandlerProperties.

Lemma not_json_fails :
  processing_error decision sample_library (heuristic false) not_json_line ValueError.
Proof.
  apply (unparsable _ _ _ _ (string_of_list_byte not_json_line)); reflexivity.
Qed.

Lemma interrupted_fails :
  processing_error decision sample_library interrupted empty_record_line
    KeyboardInterrupt.
Proof.
  apply (policy_raised _ _ _ _ (string_of_list_byte empty_record_line) (VDict []));
    reflexivity.
Qed.

Lemma errors_contained_witness :
  fst (serve decision sample_library (heuristic false)
         (Peer [Chunk not_json_line] [])) <> Raised OSError
  /\ snd (accept_loop decision sample_library (heuristic false)
            [Peer [Chunk not_json_line] []; Peer [RecvFails] [true]] 0)
     <> LoopRaised OSError
  /\ serve decision sample_library interrupted (Peer [Chunk empty_record_line] [])
     = (Raised KeyboardInterrupt, [Close]).
Proof.
  destruct (errors_contained decision sample_library (heuristic false))
    as [Hcontained _].
  destruct (Hcontained (fun obs e => heuristic_raises_Exception obs false e))
    as [Hone Hloop].
  split; [|split].
  - apply Hone. reflexivity.
  - apply Hloop. reflexivity.
  - apply (proj2 (errors_contained decision sample_library interrupted)
             (Peer [Chunk empty_record_line] []) empty_record_line
             KeyboardInterrupt).
    + reflexivity.
    + discriminate.
    + exact interrupted_fails.
    + reflexivity.
Defined.

(** C2 as stated fails: a [KeyboardInterrupt] raised while the policy runs is
    not an [Exception], so it leaves [handle_connection], and [main] stops
    the accept loop on it; the connection that follows is not served. *)
Lemma interrupt_passes_through :
  serve decision sample_library interrupted (Peer [Chunk empty_record_line] [])
  = (Raised KeyboardInterrupt, [Close])
  /\ main decision sample_library interrupted
       [Peer [Chunk empty_record_line] []; Peer [Chunk empty_record_line] []]
     = ([(0%nat, Close)], Stopped).
Proof.
  split; reflexivity.
Qed.

(** A peer that resets the connection makes both [recv] and the [sendall] of
    the [except] branch raise; that second error leaves the handler and ends
    the server. *)
Lemma reset_connection_ends_server :
  serve decision sample_library (heuristic false) (Peer [RecvFails] [false])
  = (Raised OSError, [LogWarning OSError; Sendall fallback_response; Close])
  /\ main decision sample_library (heuristic false)
       [Peer [RecvFails] [false]; Peer [Chunk empty_record_line] []]
     = ([(0%nat, LogWarning OSError); (0%nat, Sendall fallback_response);
         (0%nat, Close)],
        Crashed OSError).
Proof.
  split; reflexivity.
Qed.

Lemma failed_request_gets_fallback_witness :
  sends (snd (serve decision sample_library (heuristic false)
                (Peer [Chunk not_json_line] [])))
  = [fallback_response]
  /\ closes (snd (serve decision sample_library (heuristic false)
                    (Peer [Chunk not_json_line] []))) = 1%nat.
Proof.
  destruct (failed_request_gets_fallback decision sample_library (heuristic false)
              (Peer [Chunk not_json_line] [])) as [Hfallback Hclose].
  split.
  - apply (Hfallback not_json_line ValueError).
    + reflexivity.
    + discriminate.
    + exact not_json_fails.
    + reflexivity.
  - apply Hclose. discriminate.
Defined.

(** C3 as stated fails for an exception that is not an [Exception]: when
    the policy is interrupted nothing is written, the stream is only
    closed. *)
Lemma interrupted_request_gets_no_fallback :
  processing_error decision sample_library interrupted empty_record_line
    KeyboardInterrupt
  /\ sends (snd (serve decision sample_library interrupted
                   (Peer [Chunk empty_record_line] []))) = []
  /\ closes (snd (serve decision sample_library interrupted
                    (Peer [Chunk empty_record_line] []))) = 1%nat.
Proof.
  split; [exact interrupted_fails | split; reflexivity].
Qed.



Lemma read_stops_after_newline_or_8192_witness :
  (Z.of_nat (List.length (chunk_4096 ++ chunk_4096 ++ chunk_4096)) <= 12288)%Z
  /\ (exists chunks tail,
         [Chunk chunk_4096; Chunk not_json_line; Chunk not_json_line]
         = map Chunk chunks ++ tail
         /\ Forall (fun chunk => chunk <> []) chunks
         /\ chunk_4096 ++ not_json_line = List.concat chunks
         /\ (forall k, (0 < k < List.length chunks)%nat ->
                       stop_reading (List.concat (firstn k chunks)) = false)
         /\ ((chunks <> [] /\ stop_reading (chunk_4096 ++ not_json_line) = true
              /\ tail = [Chunk not_json_line])
             \/ (tail = [] /\ [Chunk not_json_line] = [])
             \/ tail = [Chunk []; Chunk not_json_line]))
  /\ serve decision sample_library (heuristic false) (Peer [] [])
     = (Done tt, [Close]).
Proof.
  destruct (read_stops_after_newline_or_8192 decision sample_library (heuristic false))
    as [Hbound [Hfirst Hempty]].
  split; [|split].
  - apply (Hbound [Chunk chunk_4096; Chunk chunk_4096; Chunk chunk_4096]
             (chunk_4096 ++ chunk_4096 ++ chunk_4096) []).
    + intros chunk [H|[H|[H|[]]]]; injection H as <-;
        unfold chunk_4096; rewrite repeat_length; apply le_n.
    + vm_compute; reflexivity.
  - apply (Hfirst [Chunk chunk_4096; Chunk not_json_line; Chunk not_json_line]
             (chunk_4096 ++ not_json_line) [Chunk not_json_line]).
    reflexivity.
  - apply (Hempty (Peer [] [])). left. reflexivity.
Defined.

(** C5 as stated fails: after two chunks of 4096 bytes the buffer has reached
    8192 bytes and the loop goes on, since it stops only above 8192; a third
    chunk brings the buffer to 12288 bytes without a newline. *)
Lemma three_full_chunks_read :
  stop_reading (chunk_4096 ++ chunk_4096) = false
  /\ read_loop [Chunk chunk_4096; Chunk chunk_4096; Chunk chunk_4096] []
     = (Done (chunk_4096 ++ chunk_4096 ++ chunk_4096), [])
  /\ Z.of_nat (List.length (chunk_4096 ++ chunk_4096 ++ chunk_4096)) = 12288%Z
  /\ existsb (Byte.eqb newline) (chunk_4096 ++ chunk_4096 ++ chunk_4096) = false.
Proof.
  repeat split; vm_compute; reflexivity.
Qed.

(** * Further properties of the policy engine *)

(** ** The errors of the policy *)

Section PolicyErrors.

(** A set of exception classes that holds the three the policy's operations
    raise. *)
Variable allowed : exn -> bool.
Hypothesis allowed_AttributeError : allowed AttributeError = true.
Hypothesis allowed_TypeError : allowed TypeError = true.
Hypothesis allowed_KeyError : allowed KeyError = true.

Lemma py_get_allowed (d : value) (key : string) (default : value) (e : exn) :
  py_get d key default = Raise e -> allowed e = true.
Proof.
  destruct d; cbn; intros H; try discriminate; injection H as <-; assumption.
Qed.

Lemma py_getitem_allowed (d : value) (key : string) (e : exn) :
  py_getitem d key = Raise e -> allowed e = true.
Proof.
  destruct d; cbn; try destruct (lookup key fields); intros H;
    try discriminate; injection H as <-; assumption.
Qed.

Lemma py_cmp_allowed (op : cmp_op) (v : value) (k : Z) (e : exn) :
  py_cmp op v k = Raise e -> allowed e = true.
Proof.
  unfold py_cmp. destruct (as_number v); intros H; [discriminate|].
  injection H as <-; assumption.
Qed.

Lemma py_abs_allowed (v : value) (e : exn) :
  py_abs v = Raise e -> allowed e = true.
Proof.
  destruct v; cbn; intros H; try discriminate; injection H as <-; assumption.
Qed.

Lemma and_then_allowed (a : bool) (op : cmp_op) (v : value) (k : Z) (e : exn) :
  and_then a (py_cmp op v k) = Raise e -> allowed e = true.
Proof.
  destruct a; cbn; [apply py_cmp_allowed | discriminate].
Qed.

Lemma cmp_and_then_allowed (op op' : cmp_op) (v v' : value) (k k' : Z) (e : exn) :
  (c <-- py_cmp op v k ;; and_then c (py_cmp op' v' k')) = Raise e ->
  allowed e = true.
Proof.
  destruct (py_cmp op v k) as [c|e'] eqn:Hc; cbn [rbind].
  - apply and_then_allowed.
  - intros H; injection H as <-. eapply py_cmp_allowed, Hc.
Qed.

Lemma sum_near_allowed (es : list value) :
  forall total e, sum_near total es = Raise e -> allowed e = true.
Proof.
  induction es as [|v es IH]; intros total e H; cbn in H; [discriminate|].
  destruct (entity_near v) as [near|e'] eqn:Hn; cbn [rbind] in H.
  - eapply IH, H.
  - injection H as <-. unfold entity_near in Hn.
    destruct (py_get v "distance" (VInt 99)) as [d|e''] eqn:Hg; cbn [rbind] in Hn.
    + eapply py_cmp_allowed, Hn.
    + injection Hn as <-. eapply py_get_allowed, Hg.
Qed.

Lemma count_nearby_allowed (v : value) (e : exn) :
  count_nearby v = Raise e -> allowed e = true.
Proof.
  unfold count_nearby. destruct (py_iter v) as [es|e'] eqn:Hi; cbn [rbind].
  - apply sum_near_allowed.
  - intros H; injection H as <-.
    destruct v; cbn in Hi; try discriminate; injection Hi as <-; assumption.
Qed.

Lemma heuristic_raises_allowed (obs : value) (index : bool) (e : exn) :
  heuristic_policy obs index = Raise e -> allowed e = true.
Proof.
  unfold heuristic_policy. intros H.
  assert (He : snd (heuristic_eval obs index) = Raise e)
    by (destruct (snd (heuristic_eval obs index)); cbn in H; congruence).
  clear H. unfold heuristic_eval in He.
  repeat first
    [ progress (rewrite snd_bind in He; cbn [lift hostile_field snd] in He)
    | match type of He with
      | rbind ?r _ = _ =>
          let E := fresh "E" in
          destruct r eqn:E; cbn [rbind] in He;
          [| injection He as <-;
             eauto using py_get_allowed, py_getitem_allowed, py_cmp_allowed,
               py_abs_allowed, count_nearby_allowed, and_then_allowed,
               cmp_and_then_allowed ]
      | snd (if ?b then _ else _) = _ => destruct b eqn:?
      end ];
    discriminate He.
Qed.

End PolicyErrors.

(** X1: whatever [heuristic_policy] raises is an [AttributeError], a
    [TypeError] or a [KeyError]. *)
Theorem heuristic_error_classes (obs : value) (index : bool) (e : exn) :
  heuristic_policy obs index = Raise e ->
  e = AttributeError \/ e = TypeError \/ e = KeyError.
Proof.
  intros H.
  apply (heuristic_raises_allowed policy_error eq_refl eq_refl eq_refl) in H.
  destruct e; try discriminate; auto.
Qed.

Lemma heuristic_error_classes_witness :
  KeyError = AttributeError \/ KeyError = TypeError \/ KeyError = KeyError.
Proof.
  apply (heuristic_error_classes
           (VDict [("nearest_hostile", VDict [("angle", VInt 10)])]) false KeyError).
  reflexivity.
Defined.

(** X2: [heuristic_policy] raises [KeyError] exactly on a record whose
    [bot_health] is not at most 4 and whose [nearest_hostile] is a record
    without [distance]. *)
Theorem key_error_iff_distance_missing (obs : value) (index : bool) :
  heuristic_policy obs index = Raise KeyError
  <-> exists fields hostile_fields,
        obs = VDict fields
        /\ py_cmp OpLe (field_or fields "bot_health" (VInt 20)) 4 = Ret false
        /\ field_or fields "nearest_hostile" VNone = VDict hostile_fields
        /\ lookup "distance" hostile_fields = None.
Proof.
  split.
  - unfold heuristic_policy. intros H.
    assert (He : snd (heuristic_eval obs index) = Raise KeyError)
      by (destruct (snd (heuristic_eval obs index)); cbn in H; congruence).
    clear H. destruct obs; try discriminate He.
    exists fields. unfold heuristic_eval in He. eval_step He.
    destruct (py_cmp OpLe (field_or fields "bot_health" (VInt 20)) 4)
      as [[]|e] eqn:Hlow; cbn [rbind] in He.
    + discriminate He.
    + destruct (field_or fields "nearest_hostile" VNone) as [| | | | | |hf] eqn:Hh;
        cbn [is_None] in He; eval_step He; try discriminate He.
      exists hf. cbn [py_getitem] in He.
      destruct (lookup "distance" hf) as [dist|] eqn:Hd; [|auto].
      exfalso. cbn [rbind] in He.
      repeat first
        [ progress (rewrite snd_bind in He;
                    cbn [lift hostile_field snd py_get rbind] in He)
        | match type of He with
          | rbind ?r _ = _ =>
              let E := fresh "E" in
              destruct r eqn:E; cbn [rbind] in He;
              [| injection He as ->;
                 first
                   [ apply (py_cmp_allowed not_KeyError eq_refl) in E
                   | apply (py_abs_allowed not_KeyError eq_refl) in E
                   | apply (count_nearby_allowed not_KeyError eq_refl eq_refl) in E
                   | apply (and_then_allowed not_KeyError eq_refl) in E
                   | apply (cmp_and_then_allowed not_KeyError eq_refl) in E ];
                 discriminate E ]
          | snd (if ?b then _ else _) = _ => destruct b eqn:?
          end ];
        discriminate He.
    + injection He as ->.
      apply (py_cmp_allowed not_KeyError eq_refl) in Hlow. discriminate Hlow.
  - intros (fields & hf & -> & Hlow & Hh & Hd).
    unfold heuristic_policy, heuristic_eval. eval_fwd.
    rewrite Hlow, Hh. cbn [rbind is_None]. eval_fwd.
    cbn [py_getitem]. rewrite Hd. reflexivity.
Qed.

Lemma key_error_iff_distance_missing_witness :
  heuristic_policy
    (VDict [("bot_health", VInt 12); ("nearest_hostile", VDict [("angle", VInt 3)])])
    true = Raise KeyError.
Proof.
  apply (proj2 (key_error_iff_distance_missing _ true)).
  exists [("bot_health", VInt 12); ("nearest_hostile", VDict [("angle", VInt 3)])],
    [("angle", VInt 3)].
  repeat split.
Defined.

(** ** What the decision depends on *)

(** X3: the decision depends on [bot_health], [nearest_hostile] and
    [all_entities] only: two records that agree on these three keys are
    decided alike, whatever [bot_food], [bot_pos], [has_sword], [has_shield],
    [has_bow] or any other key holds. *)
Theorem other_fields_ignored
    (fields fields' : list (string * value)) (index : bool) :
  field_or fields "bot_health" (VInt 20) = field_or fields' "bot_health" (VInt 20) ->
  field_or fields "nearest_hostile" VNone = field_or fields' "nearest_hostile" VNone ->
  field_or fields "all_entities" (VList []) = field_or fields' "all_entities" (VList []) ->
  heuristic_policy (VDict fields) index = heuristic_policy (VDict fields') index
  /\ fired_rule (VDict fields) index = fired_rule (VDict fields') index.
Proof.
  intros Hh Hn Ha. unfold heuristic_policy, fired_rule, heuristic_eval.
  cbn [py_get]. rewrite Hh, Hn, Ha. split; reflexivity.
Qed.

Lemma other_fields_ignored_witness :
  heuristic_policy
    (VDict [("bot_health", VInt 9); ("has_sword", VBool true)]) false
  = heuristic_policy
      (VDict [("bot_food", VStr "none"); ("bot_health", VInt 9);
              ("bot_pos", VNone)]) false
  /\ fired_rule
       (VDict [("bot_health", VInt 9); ("has_sword", VBool true)]) false
     = fired_rule
         (VDict [("bot_food", VStr "none"); ("bot_health", VInt 9);
                 ("bot_pos", VNone)]) false.
Proof.
  apply other_fields_ignored; reflexivity.
Defined.

Lemma eval_choice (obs : value) (index : bool) :
  snd (heuristic_eval obs index)
  = match snd (heuristic_eval obs false) with
    | Ret rd =>
        Ret (fst rd,
             match fst rd with
             | Rule8 => Decision (random_choice index strafe_left strafe_right) f0_75
             | _ => snd rd
             end)
    | Raise e => Raise e
    end.
Proof.
  unfold heuristic_eval.
  repeat first
    [ progress (rewrite !snd_bind; cbn [lift hostile_field snd rbind ret fst])
    | match goal with
      | |- context [rbind ?r _] => destruct r; cbn [rbind]
      | |- context [if ?b then _ else _] => destruct b
      end ];
    reflexivity.
Qed.

(** X4: the draw of [random.choice] matters in rule 8 only: the return
    statement reached does not depend on it, the decision of every other
    rule does not either, and in rule 8 index 0 gives [strafe_left] and
    index 1 gives [strafe_right], both with confidence 0.75. *)
Theorem choice_only_in_rule_8 (obs : value) :
  fired_rule obs true = fired_rule obs false
  /\ (fired_rule obs false <> Ret Rule8 ->
      heuristic_policy obs true = heuristic_policy obs false)
  /\ (fired_rule obs false = Ret Rule8 ->
      heuristic_policy obs false = Ret (Decision strafe_left f0_75)
      /\ heuristic_policy obs true = Ret (Decision strafe_right f0_75)).
Proof.
  unfold fired_rule, heuristic_policy.
  rewrite (eval_choice obs true). pose proof (eval_choice obs false) as Hf.
  destruct (snd (heuristic_eval obs false)) as [[r d]|e]; cbn in *.
  - repeat split.
    + intros H. destruct r; try reflexivity. now destruct H.
    + injection H as ->. injection Hf as ->. reflexivity.
    + injection H as ->. reflexivity.
  - repeat split; discriminate.
Qed.

Lemma choice_only_in_rule_8_witness :
  heuristic_policy obs_distance_7 true = heuristic_policy obs_distance_7 false
  /\ heuristic_policy obs_mid_range false = Ret (Decision strafe_left f0_75)
  /\ heuristic_policy obs_mid_range true = Ret (Decision strafe_right f0_75).
Proof.
  split.
  - apply (proj1 (proj2 (choice_only_in_rule_8 obs_distance_7))). discriminate.
  - apply (proj2 (proj2 (choice_only_in_rule_8 obs_mid_range))). reflexivity.
Defined.

Lemma and_then_ret (a b : bool) : and_then a (Ret b) = Ret (a && b).
Proof. destruct a; reflexivity. Qed.

(** X5: on integer fields the chain of rules is the integer table: with
    [bot_health], the hostile's [distance] and [angle] ints and the nearby
    entities counted, [heuristic_policy] returns what [decision_table] gives
    for them. *)
Theorem policy_on_integers
    (fields hostile_fields : list (string * value)) (index : bool)
    (health dist angle nearby : Z) :
  field_or fields "bot_health" (VInt 20) = VInt health ->
  field_or fields "nearest_hostile" VNone = VDict hostile_fields ->
  lookup "distance" hostile_fields = Some (VInt dist) ->
  field_or hostile_fields "angle" (VInt 0) = VInt angle ->
  count_nearby (field_or fields "all_entities" (VList [])) = Ret nearby ->
  heuristic_policy (VDict fields) index
  = Ret (decision_table health dist angle nearby index).
Proof.
  intros Hh Hhost Hd Ha Hn.
  unfold heuristic_policy, heuristic_eval, decision_table. eval_fwd.
  rewrite Hh, Hhost, py_cmp_int. cbn [rbind is_None].
  destruct (health <=? 4)%Z; [reflexivity|]. eval_fwd.
  cbn [py_getitem]. rewrite Hd. cbn [rbind]. eval_fwd.
  rewrite Ha. cbn [py_abs rbind]. eval_fwd.
  rewrite Hn. cbn [rbind]. eval_fwd.
  rewrite py_cmp_int, and_then_ret. cbn [rbind].
  destruct ((3 <=? nearby)%Z && (health <? 15)%Z); [reflexivity|]. eval_fwd.
  rewrite py_cmp_int. cbn [rbind].
  destruct (Z.abs angle >? 90)%Z; [reflexivity|]. eval_fwd.
  rewrite py_cmp_int. cbn [rbind].
  destruct (dist >? 6)%Z eqn:Hfar; [reflexivity|]. eval_fwd.
  rewrite !py_cmp_int. cbn [rbind]. rewrite and_then_ret. cbn [rbind].
  destruct ((dist <=? 3)%Z && (Z.abs angle <? 45)%Z); [reflexivity|]. eval_fwd.
  rewrite ?py_cmp_int. cbn [rbind].
  assert (Hmid : (dist <=? 6)%Z = true) by lia.
  rewrite Hmid. reflexivity.
Qed.

Lemma policy_on_integers_witness :
  heuristic_policy obs_mid_range true = Ret (decision_table 20 5 60 0 true).
Proof.
  apply (policy_on_integers _ [("distance", VInt 5); ("angle", VInt 60)]);
    reflexivity.
Defined.

(** X6: [distance] is not looked at before rules 4 and 5.  With a hostile
    whose [distance] is there but is not a number, a swarmed agent still gets
    [flee] 0.85 and a hostile behind still gets [strafe_left] 0.7; otherwise
    the comparison of rule 6 raises [TypeError]. *)
Theorem distance_untested_before_rule_6
    (fields hostile_fields : list (string * value)) (index : bool)
    (dist angle : value) (nearby : Z) (swarmed behind : bool) :
  py_cmp OpLe (field_or fields "bot_health" (VInt 20)) 4 = Ret false ->
  field_or fields "nearest_hostile" VNone = VDict hostile_fields ->
  lookup "distance" hostile_fields = Some dist ->
  is_number dist = false ->
  py_abs (field_or hostile_fields "angle" (VInt 0)) = Ret angle ->
  count_nearby (field_or fields "all_entities" (VList [])) = Ret nearby ->
  and_then (3 <=? nearby)%Z (py_cmp OpLt (field_or fields "bot_health" (VInt 20)) 15)
  = Ret swarmed ->
  py_cmp OpGt angle 90 = Ret behind ->
  heuristic_policy (VDict fields) index
  = if swarmed then Ret (Decision flee f0_85)
    else if behind then Ret (Decision strafe_left f0_7)
    else Raise TypeError.
Proof.
  intros Hlow Hhost Hd Hnum Ha Hn Hs Hb.
  unfold heuristic_policy, heuristic_eval. eval_fwd.
  rewrite Hlow, Hhost. cbn [rbind is_None]. eval_fwd.
  cbn [py_getitem]. rewrite Hd. cbn [rbind]. eval_fwd.
  rewrite Ha. cbn [rbind]. eval_fwd.
  rewrite Hn. cbn [rbind]. eval_fwd.
  rewrite Hs. cbn [rbind].
  destruct swarmed; [reflexivity|]. eval_fwd.
  rewrite Hb. cbn [rbind].
  destruct behind; [reflexivity|]. eval_fwd.
  unfold py_cmp at 1. unfold is_number in Hnum.
  destruct (as_number dist); [discriminate | reflexivity].
Qed.

Lemma distance_untested_before_rule_6_witness :
  heuristic_policy obs_unmeasured_behind false = Ret (Decision strafe_left f0_7).
Proof.
  apply (distance_untested_before_rule_6
           _ [("distance", VStr "near"); ("angle", VInt (-120))] false
           (VStr "near") (VInt 120) 0 false true);
    reflexivity.
Defined.

Lemma py_abs_opposite (v w : value) : opposite v w -> py_abs v = py_abs w.
Proof.
  intros [(n & -> & ->)|(f & -> & ->)]; cbn.
  - now rewrite Z.abs_opp.
  - now destruct f.
Qed.

(** X7: the sign of the hostile's [angle] does not matter: two records that
    differ only in that one has the angle [x] and the other [-x] (an int or a
    float) are decided alike. *)
Theorem angle_sign_ignored
    (fields fields' hostile_fields hostile_fields' : list (string * value))
    (index : bool) :
  field_or fields "bot_health" (VInt 20) = field_or fields' "bot_health" (VInt 20) ->
  field_or fields "all_entities" (VList []) = field_or fields' "all_entities" (VList []) ->
  field_or fields "nearest_hostile" VNone = VDict hostile_fields ->
  field_or fields' "nearest_hostile" VNone = VDict hostile_fields' ->
  lookup "distance" hostile_fields = lookup "distance" hostile_fields' ->
  opposite (field_or hostile_fields "angle" (VInt 0))
           (field_or hostile_fields' "angle" (VInt 0)) ->
  heuristic_policy (VDict fields) index = heuristic_policy (VDict fields') index.
Proof.
  intros Hh Ha Hhost Hhost' Hd Hopp. apply py_abs_opposite in Hopp.
  unfold heuristic_policy. f_equal. unfold heuristic_eval. eval_fwd.
  rewrite Hh, Ha, Hhost, Hhost'.
  destruct (py_cmp OpLe (field_or fields' "bot_health" (VInt 20)) 4) as [[]|e];
    cbn [rbind is_None]; try reflexivity.
  eval_fwd. cbn [py_getitem]. rewrite Hd.
  destruct (lookup "distance" hostile_fields') as [dist|]; cbn [rbind];
    [|reflexivity].
  eval_fwd. rewrite Hopp. reflexivity.
Qed.

Lemma angle_sign_ignored_witness :
  heuristic_policy
    (VDict [("nearest_hostile", VDict [("distance", VInt 2); ("angle", VInt 100)])])
    false
  = heuristic_policy
      (VDict [("nearest_hostile", VDict [("distance", VInt 2); ("angle", VInt (-100))])])
      false.
Proof.
  apply (angle_sign_ignored
           _ _ [("distance", VInt 2); ("angle", VInt 100)]
           [("distance", VInt 2); ("angle", VInt (-100))]);
    try reflexivity.
  left. exists 100%Z. split; reflexivity.
Defined.

(** ** The entities *)

Lemma sum_near_permutation (es es' : list value) :
  Permutation es es' ->
  forall total n, sum_near total es = Ret n -> sum_near total es' = Ret n.
Proof.
  induction 1 as [|x l l' _ IH|x y l|l l' l'' _ IH1 _ IH2]; intros total n H.
  - exact H.
  - cbn in *. destruct (entity_near x); cbn [rbind] in *; [auto | discriminate].
  - cbn in *.
    destruct (entity_near y) as [[]|]; cbn [rbind] in *; try discriminate;
      destruct (entity_near x) as [[]|]; cbn [rbind] in *; try discriminate;
      exact H.
  - auto.
Qed.

Ltac eval_replay :=
  repeat first
    [ progress (rewrite snd_bind; cbn [lift hostile_field snd rbind ret py_get])
    | match goal with
      | E : ?r = Ret _ |- context [rbind ?r _] => rewrite E; cbn [rbind]
      | E : ?b = _ |- context [if ?b then _ else _] => rewrite E
      end ].

(** X8: the order of [all_entities] does not matter: when the policy returns
    a decision on a record, it returns the same decision on a record with the
    same health and hostile whose entities are the same in another order. *)
Theorem entity_order_ignored
    (fields fields' : list (string * value)) (es es' : list value)
    (index : bool) (d : decision) :
  field_or fields "bot_health" (VInt 20) = field_or fields' "bot_health" (VInt 20) ->
  field_or fields "nearest_hostile" VNone = field_or fields' "nearest_hostile" VNone ->
  field_or fields "all_entities" (VList []) = VList es ->
  field_or fields' "all_entities" (VList []) = VList es' ->
  Permutation es es' ->
  heuristic_policy (VDict fields) index = Ret d ->
  heuristic_policy (VDict fields') index = Ret d.
Proof.
  intros Hh Hhost Ha Ha' Hperm H.
  apply policy_of_eval in H as [r H].
  unfold heuristic_eval in H. cbn [py_get] in H. rewrite Hh, Hhost, Ha in H.
  unfold heuristic_policy, heuristic_eval. cbn [py_get]. rewrite Ha'.
  pose proof (sum_near_permutation es es' Hperm 0%Z) as Hsum.
  eval_inv H; injection H as <- <-;
    try match goal with
      | E : count_nearby (VList es) = Ret ?n |- _ =>
          assert (E' : count_nearby (VList es') = Ret n) by (apply Hsum, E)
      end;
    eval_replay; reflexivity.
Qed.

Lemma entity_order_ignored_witness :
  heuristic_policy
    (VDict [("bot_health", VInt 10);
            ("nearest_hostile", VDict [("distance", VInt 2)]);
            ("all_entities",
             VList [VDict [("distance", VInt 9)]; VDict [("distance", VInt 1)];
                    VDict [("distance", VInt 2)]; VDict [("distance", VInt 3)]])])
    false
  = Ret (Decision flee f0_85).
Proof.
  apply (entity_order_ignored
           [("bot_health", VInt 10);
            ("nearest_hostile", VDict [("distance", VInt 2)]);
            ("all_entities",
             VList [VDict [("distance", VInt 1)]; VDict [("distance", VInt 9)];
                    VDict [("distance", VInt 2)]; VDict [("distance", VInt 3)]])]
           _
           [VDict [("distance", VInt 1)]; VDict [("distance", VInt 9)];
            VDict [("distance", VInt 2)]; VDict [("distance", VInt 3)]]
           [VDict [("distance", VInt 9)]; VDict [("distance", VInt 1)];
            VDict [("distance", VInt 2)]; VDict [("distance", VInt 3)]]);
    try reflexivity.
  apply perm_swap.
Defined.

(** X9: the swarm rule (rule 4) fires only when [all_entities] has at least
    three elements, at least three of them are counted as nearby, and
    [bot_health] is above 4 and below 15. *)
Theorem swarm_rule_conditions (fields : list (string * value)) (index : bool) :
  fired_rule (VDict fields) index = Ret Rule4 ->
  exists es nearby,
    py_iter (field_or fields "all_entities" (VList [])) = Ret es
    /\ count_nearby (field_or fields "all_entities" (VList [])) = Ret nearby
    /\ (3 <= nearby <= Z.of_nat (List.length es))%Z
    /\ py_cmp OpLe (field_or fields "bot_health" (VInt 20)) 4 = Ret false
    /\ py_cmp OpLt (field_or fields "bot_health" (VInt 20)) 15 = Ret true.
Proof.
  intros H. apply rule_of_eval in H as [d H].
  unfold heuristic_eval in H. cbn [py_get] in H.
  eval_inv H; try congruence.
  match goal with
  | Hc : count_nearby _ = Ret ?n, Hs : and_then (3 <=? ?n)%Z _ = Ret true |- _ =>
      pose proof Hc as Hc'; unfold count_nearby in Hc';
      destruct (py_iter (field_or fields "all_entities" (VList []))) as [es|e];
      cbn [rbind] in Hc'; [|discriminate];
      exists es, n; apply sum_near_counts in Hc';
      pose proof (filter_length_le distance_present_below_8 es);
      unfold and_then in Hs; destruct (3 <=? n)%Z eqn:Hn; [|discriminate];
      repeat split; try assumption; lia
  end.
Qed.

Lemma swarm_rule_conditions_witness :
  exists es nearby,
    py_iter (VList [VDict [("distance", VInt 1)]; VDict [("distance", VInt 2)];
                    VDict [("distance", VInt 3)]]) = Ret es
    /\ count_nearby
         (VList [VDict [("distance", VInt 1)]; VDict [("distance", VInt 2)];
                 VDict [("distance", VInt 3)]]) = Ret nearby
    /\ (3 <= nearby <= Z.of_nat (List.length es))%Z
    /\ py_cmp OpLe (VInt 10) 4 = Ret false
    /\ py_cmp OpLt (VInt 10) 15 = Ret true.
Proof.
  apply (swarm_rule_conditions
           [("bot_health", VInt 10);
            ("nearest_hostile", VDict [("distance", VInt 2)]);
            ("all_entities",
             VList [VDict [("distance", VInt 1)]; VDict [("distance", VInt 2)];
                    VDict [("distance", VInt 3)]])]
           false).
  reflexivity.
Defined.

(** * Further properties of the connection handler *)

Lemma non_record_raises (obs : value) (index : bool) :
  is_record obs = false -> heuristic_policy obs index = Raise AttributeError.
Proof.
  destruct obs; try reflexivity. discriminate.
Qed.

(** X10: a request that is valid JSON but not a record (a list, a number, a
    string, [null]) makes [heuristic_policy] raise [AttributeError], and the
    handler answers it with the fallback line. *)
Theorem non_record_request_gets_fallback
    (lib : library decision) (index : bool) (p : peer)
    (data : bytes) (text : string) (obs : value) :
  fst (read_loop (recv_script p) []) = Done data ->
  data <> [] ->
  bytes_decode lib data = Some text ->
  json_loads lib (str_strip lib text) = Some obs ->
  is_record obs = false ->
  heuristic_policy obs index = Raise AttributeError
  /\ snd (serve decision lib (heuristic index) p)
     = [LogWarning AttributeError; Sendall fallback_response; Close].
Proof.
  intros Hread Hne Hdec Hloads Hrec.
  pose proof (non_record_raises obs index Hrec) as Hraise.
  split; [exact Hraise|].
  rewrite serve_by_cases, Hread. destruct data as [|b data]; [contradiction|].
  rewrite (processing_error_reply decision lib (heuristic index) (b :: data)
             AttributeError
             (policy_raised _ _ _ _ text obs AttributeError Hdec Hloads Hraise)).
  reflexivity.
Qed.

Lemma non_record_request_gets_fallback_witness :
  heuristic_policy (VList []) false = Raise AttributeError
  /\ snd (serve decision list_library (heuristic false)
            (Peer [Chunk empty_list_line] []))
     = [LogWarning AttributeError; Sendall fallback_response; Close].
Proof.
  apply (non_record_request_gets_fallback
           list_library false (Peer [Chunk empty_list_line] [])
           empty_list_line (string_of_list_byte empty_list_line) (VList []));
    try reflexivity.
  discriminate.
Defined.

(** At most 8192 bytes are in the buffer when [recv] is called again, and
    every chunk that does not end the loop adds at least one. *)
Lemma read_loop_calls (script : list recv_event) :
  forall data0 r rest,
    (Z.of_nat (List.length data0) <= 8192)%Z ->
    read_loop script data0 = (r, rest) ->
    exists consumed,
      script = consumed ++ rest
      /\ (Z.of_nat (List.length consumed) <= 8193 - Z.of_nat (List.length data0))%Z.
Proof.
  induction script as [|ev script IH]; intros data0 r rest Hlen H; cbn in H.
  - injection H as <- <-. exists []. split; [reflexivity | cbn [List.length]; lia].
  - destruct ev as [[|b chunk]| |].
    + injection H as <- <-. exists [Chunk []]. split; [reflexivity | cbn [List.length]; lia].
    + destruct (stop_reading (data0 ++ b :: chunk)) eqn:Hstop.
      * injection H as <- <-. exists [Chunk (b :: chunk)].
        split; [reflexivity | cbn [List.length]; lia].
      * apply stop_reading_false in Hstop as [_ Hstop].
        destruct (IH _ _ _ Hstop H) as (consumed & -> & Hc).
        exists (Chunk (b :: chunk) :: consumed). split; [reflexivity|].
        rewrite length_app in Hc. cbn [List.length] in *. lia.
    + injection H as <- <-. exists [RecvFails]. split; [reflexivity | cbn [List.length]; lia].
    + injection H as <- <-. exists []. split; [reflexivity | cbn [List.length]; lia].
Qed.

(** X11: whatever the peer sends and however it cuts it into chunks, the
    read loop takes at most 8193 results of [recv] before it ends, and
    leaves the rest unread. *)
Theorem read_loop_takes_at_most_8193_chunks
    (script : list recv_event) (r : outcome bytes) (rest : list recv_event) :
  read_loop script [] = (r, rest) ->
  exists consumed,
    script = consumed ++ rest /\ (Z.of_nat (List.length consumed) <= 8193)%Z.
Proof.
  intros H.
  destruct (read_loop_calls script [] r rest) as (consumed & Hs & Hc);
    [cbn [List.length]; lia | exact H |].
  exists consumed. split; [exact Hs | cbn [List.length] in Hc; lia].
Qed.

Lemma read_loop_takes_at_most_8193_chunks_witness :
  exists consumed,
    [Chunk not_json_line; Chunk empty_record_line]
    = consumed ++ [Chunk empty_record_line]
    /\ (Z.of_nat (List.length consumed) <= 8193)%Z.
Proof.
  apply (read_loop_takes_at_most_8193_chunks
           [Chunk not_json_line; Chunk empty_record_line] (Done not_json_line)).
  reflexivity.
Defined.

Lemma read_loop_never_blocked (script : list recv_event) :
  forallb (fun ev => match ev with
                     | Stall => false
                     | _ => true
                     end) script = true ->
  forall data, fst (read_loop script data) <> Blocked.
Proof.
  induction script as [|ev script IH]; intros Hs data; cbn in *.
  - discriminate.
  - destruct ev as [[|b chunk]| |]; try discriminate.
    destruct (stop_reading (data ++ b :: chunk)); [discriminate | auto].
Qed.

(** The buffer is empty when the loop ends only if the first [recv] already
    returned nothing. *)
Lemma read_done_empty (script : list recv_event) :
  fst (read_loop script []) = Done []
  <-> script = [] \/ exists rest, script = Chunk [] :: rest.
Proof.
  split.
  - destruct script as [|[[|b chunk]| |] rest]; cbn; intros H;
      [auto | eauto | | discriminate | discriminate].
    destruct (stop_reading (b :: chunk)); [discriminate|].
    destruct (read_loop rest (b :: chunk)) as [r rest'] eqn:Hr. cbn in H. subst r.
    apply read_loop_stops_first in Hr as (chunks & tail & _ & _ & Hd & _).
    discriminate Hd.
  - intros [->|[rest ->]]; reflexivity.
Qed.

Section HandlerTraces.

Variable A : Type.
Variable lib : library A.
Variable policy_fn : value -> result A.

Local Abbreviation handled := (serve A lib policy_fn).
Local Abbreviation answer := (reply_for A lib policy_fn).

(** X12: the handler never touches the stream after closing it: when it
    ends, [close] is the last thing in its trace and occurs nowhere before;
    when it never ends, waiting in [recv], it has done nothing yet. *)
Theorem close_is_last (p : peer) :
  (fst (handled p) = Blocked -> snd (handled p) = [])
  /\ (fst (handled p) <> Blocked ->
      exists before,
        snd (handled p) = before ++ [Close] /\ closes before = 0%nat).
Proof.
  rewrite serve_by_cases. unfold after_send.
  destruct (fst (read_loop (recv_script p) [])) as [[|b data]|e|]; cbn [fst snd].
  - split; [discriminate|]. intros _. exists []. split; reflexivity.
  - destruct (answer (b :: data)) as [payload|e].
    + destruct (send_ok p 0); [|destruct (send_ok p 1)]; cbn [fst snd];
        (split; [discriminate|]); intros _.
      * exists [Sendall payload]. split; reflexivity.
      * exists [Sendall payload; LogWarning OSError; Sendall fallback_response].
        split; reflexivity.
      * exists [Sendall payload; LogWarning OSError; Sendall fallback_response].
        split; reflexivity.
    + destruct (is_Exception e); [destruct (send_ok p 0)|]; cbn [fst snd];
        (split; [discriminate|]); intros _.
      * exists [LogWarning e; Sendall fallback_response]. split; reflexivity.
      * exists [LogWarning e; Sendall fallback_response]. split; reflexivity.
      * exists []. split; reflexivity.
  - destruct (send_ok p 0); cbn [fst snd]; (split; [discriminate|]); intros _;
      exists [LogWarning OSError; Sendall fallback_response]; split; reflexivity.
  - split; [reflexivity|]. intros H. now destruct H.
Qed.

(** X13: a handler writes at most twice and logs at most one warning.  It
    writes twice exactly when the write of the reply fails: the fallback
    line is then written after the reply on the same stream, and the handler
    ends as that second write does. *)
Theorem writes_of_a_handler (p : peer) :
  (List.length (sends (snd (handled p))) <= 2)%nat
  /\ (warnings (snd (handled p)) <= 1)%nat
  /\ (List.length (sends (snd (handled p))) = 2%nat -> send_ok p 0 = false)
  /\ (forall data payload,
         fst (read_loop (recv_script p) []) = Done data ->
         data <> [] ->
         answer data = Ret payload ->
         send_ok p 0 = false ->
         handled p
         = (after_send p 1,
            [Sendall payload; LogWarning OSError; Sendall fallback_response; Close])).
Proof.
  rewrite serve_by_cases.
  destruct (fst (read_loop (recv_script p) [])) as [[|b data]|e|] eqn:Hread.
  - cbn. repeat split; try lia; try discriminate.
    intros data payload H; injection H as <-. now intros [].
  - destruct (answer (b :: data)) as [payload|e] eqn:Hreply.
    + destruct (send_ok p 0) eqn:Hs; cbn.
      * repeat split; try lia; discriminate.
      * repeat split; try lia.
        intros data' payload' H; injection H as <-. intros _ H. congruence.
    + destruct (is_Exception e); cbn; repeat split; try lia; try discriminate;
        intros data' payload' H; injection H as <-; congruence.
  - cbn. repeat split; try lia; discriminate.
  - cbn. repeat split; try lia; discriminate.
Qed.

(** X14: the policy is asked only when at least one byte was read and the
    read did not fail: an empty read, a read that fails and a read that
    never ends go the same way whatever the policy is. *)
Theorem policy_unused_without_request (other : value -> result A) (p : peer) :
  (forall b data, fst (read_loop (recv_script p) []) <> Done (b :: data)) ->
  handled p = serve A lib other p.
Proof.
  intros H. rewrite !serve_by_cases.
  destruct (fst (read_loop (recv_script p) [])) as [[|b data]|e|]; try reflexivity.
  now destruct (H b data).
Qed.

(** X15: with a policy that raises only errors derived from [Exception], a
    handler that ends has written nothing exactly when its first [recv]
    returned no bytes, the peer having closed before sending anything; and a
    handler that never ends, waiting in [recv] for a peer that stalls before
    or after its first bytes, has written nothing either. *)
Theorem unanswered_only_when_nothing_read (p : peer) :
  (forall obs e, policy_fn obs = Raise e -> is_Exception e = true) ->
  (fst (handled p) <> Blocked ->
   (sends (snd (handled p)) = []
    <-> recv_script p = [] \/ exists rest, recv_script p = Chunk [] :: rest))
  /\ (fst (handled p) = Blocked -> sends (snd (handled p)) = []).
Proof.
  intros Hpol. rewrite serve_by_cases.
  pose proof (read_done_empty (recv_script p)) as Hempty.
  destruct (fst (read_loop (recv_script p) [])) as [[|b data]|e|] eqn:Hread.
  - cbn. split; [|reflexivity]. intros _. split; [intros _|reflexivity].
    apply Hempty. reflexivity.
  - assert (Hne : ~ (recv_script p = []
                     \/ exists rest, recv_script p = Chunk [] :: rest))
      by (intros H; apply Hempty in H; discriminate H).
    destruct (answer (b :: data)) as [payload|e] eqn:Hreply.
    + unfold after_send.
      destruct (send_ok p 0), (send_ok p 1); cbn;
        (split; [|discriminate]); intros _;
        (split; [discriminate | intros H; now destruct (Hne H)]).
    + rewrite (reply_raises A lib policy_fn _ _ Hpol Hreply). unfold after_send.
      destruct (send_ok p 0); cbn; (split; [|discriminate]); intros _;
        (split; [discriminate | intros H; now destruct (Hne H)]).
  - assert (Hne : ~ (recv_script p = []
                     \/ exists rest, recv_script p = Chunk [] :: rest))
      by (intros H; apply Hempty in H; discriminate H).
    unfold after_send.
    destruct (send_ok p 0); cbn; (split; [|discriminate]); intros _;
      (split; [discriminate | intros H; now destruct (Hne H)]).
  - cbn. split; [|reflexivity]. intros H. now destruct H.
Qed.

(** The accept loop is not ended by an exception when no handler is. *)
Lemma accept_loop_contained (pending : list peer) :
  (forall p e, In p pending -> fst (handled p) <> Raised e) ->
  forall index e, snd (accept_loop A lib policy_fn pending index) <> LoopRaised e.
Proof.
  induction pending as [|p pending IH]; intros Hp index e; cbn.
  - discriminate.
  - pose proof (fun e' => Hp p e' (or_introl eq_refl)) as Hs.
    destruct (handled p) as [[[]|e'|] tr]; cbn in *.
    + assert (IH' := IH (fun q e' Hq => Hp q e' (or_intror Hq)) (S index) e).
      destruct (accept_loop A lib policy_fn pending (S index)). exact IH'.
    + now destruct (Hs e').
    + discriminate.
Qed.

(** X16: with a policy that raises only errors derived from [Exception],
    peers that never stall and writes that go through, the loop serves every
    connection that arrives, each to its end and in order, and then waits in
    [accept]. *)
Theorem every_connection_served (pending : list peer) (index : nat) :
  (forall obs e, policy_fn obs = Raise e -> is_Exception e = true) ->
  forallb (fun p => writes_succeed p && never_stalls p) pending = true ->
  accept_loop A lib policy_fn pending index
  = (in_turn lib policy_fn index pending, WaitingInAccept).
Proof.
  intros Hpol. revert index.
  induction pending as [|p pending IH]; intros index Hok; [reflexivity|].
  cbn in Hok. apply andb_true_iff in Hok as [Hp Hok].
  apply andb_true_iff in Hp as [Hw Hs].
  cbn [accept_loop]. rewrite in_turn_cons.
  pose proof (fun e => serve_contained A lib policy_fn p e Hpol Hw) as Hne.
  assert (Hnb : fst (handled p) <> Blocked).
  { rewrite serve_by_cases. unfold after_send.
    pose proof (read_loop_never_blocked (recv_script p) Hs []) as Hr.
    destruct (fst (read_loop (recv_script p) [])) as [[|b data]|e|].
    - discriminate.
    - destruct (answer (b :: data)) as [payload|e];
        [destruct (send_ok p 0), (send_ok p 1)
        |destruct (is_Exception e), (send_ok p 0)]; discriminate.
    - destruct (send_ok p 0); discriminate.
    - now destruct Hr. }
  destruct (handled p) as [[[]|e|] tr]; cbn [fst snd] in *.
  - rewrite (IH (S index) Hok). reflexivity.
  - now destruct (Hne e).
  - now destruct Hnb.
Qed.

End HandlerTraces.

Lemma close_is_last_witness :
  snd (serve decision sample_library (heuristic false) (Peer [Stall] [])) = []
  /\ exists before,
       snd (serve decision sample_library (heuristic false)
              (Peer [Chunk not_json_line] []))
       = before ++ [Close]
       /\ closes before = 0%nat.
Proof.
  split.
  - apply (proj1 (close_is_last decision sample_library (heuristic false)
                    (Peer [Stall] []))).
    reflexivity.
  - apply (proj2 (close_is_last decision sample_library (heuristic false)
                    (Peer [Chunk not_json_line] []))).
    discriminate.
Defined.

Lemma writes_of_a_handler_witness :
  serve decision sample_library (heuristic false)
    (Peer [Chunk empty_record_line] [false; true])
  = (Done tt,
     [Sendall idle_line; LogWarning OSError; Sendall fallback_response; Close]).
Proof.
  apply (proj2 (proj2 (proj2
           (writes_of_a_handler decision sample_library (heuristic false)
              (Peer [Chunk empty_record_line] [false; true]))))
           empty_record_line idle_line);
    try reflexivity.
  discriminate.
Defined.

Lemma policy_unused_without_request_witness :
  serve decision sample_library (heuristic false) (Peer [RecvFails] [])
  = serve decision sample_library interrupted (Peer [RecvFails] []).
Proof.
  apply (policy_unused_without_request decision sample_library (heuristic false)
           interrupted (Peer [RecvFails] [])).
  discriminate.
Defined.

Lemma unanswered_only_when_nothing_read_witness :
  sends (snd (serve decision sample_library (heuristic false) (Peer [] []))) = []
  /\ sends (snd (serve decision sample_library (heuristic false)
                   (Peer [Chunk [x7b]; Stall] []))) = [].
Proof.
  split.
  - destruct (unanswered_only_when_nothing_read
                decision sample_library (heuristic false) (Peer [] [])
                (fun obs e => heuristic_raises_Exception obs false e))
      as [Hends _].
    assert (Hn : fst (serve decision sample_library (heuristic false) (Peer [] []))
                 <> Blocked) by discriminate.
    apply (proj2 (Hends Hn)). left. reflexivity.
  - apply (proj2 (unanswered_only_when_nothing_read
                    decision sample_library (heuristic false)
                    (Peer [Chunk [x7b]; Stall] [])
                    (fun obs e => heuristic_raises_Exception obs false e))).
    reflexivity.
Defined.

Lemma every_connection_served_witness :
  accept_loop decision sample_library (heuristic false)
    [Peer [Chunk empty_record_line] []; Peer [RecvFails] [true];
     Peer [Chunk not_json_line] []] 0
  = (in_turn sample_library (heuristic false) 0
       [Peer [Chunk empty_record_line] []; Peer [RecvFails] [true];
        Peer [Chunk not_json_line] []],
     WaitingInAccept).
Proof.
  apply (every_connection_served decision sample_library (heuristic false)).
  - intros obs e. apply heuristic_raises_Exception.
  - reflexivity.
Defined.

(** * The server as it is started *)

(** X17: with the policy [main] wires in, no request can stop the server as
    long as the writes go through: whatever the peers send, each handler
    ends without an exception or waits for its peer, and [main] is left
    serving or waiting in a handler, never stopped or ended by an error. *)
Theorem wired_server_survives
    (lib : library decision) (index : bool) (pending : list peer) :
  forallb writes_succeed pending = true ->
  (forall p e, In p pending ->
               fst (serve decision lib (heuristic index) p) <> Raised e)
  /\ (snd (main decision lib (heuristic index) pending) = Serving
      \/ snd (main decision lib (heuristic index) pending) = Stuck).
Proof.
  intros Hw.
  assert (Hone : forall p e, In p pending ->
                   fst (serve decision lib (heuristic index) p) <> Raised e).
  { intros p e Hin. apply serve_contained.
    - intros obs e'. apply heuristic_raises_Exception.
    - rewrite forallb_forall in Hw. apply Hw, Hin. }
  split; [exact Hone|].
  pose proof (accept_loop_contained decision lib (heuristic index) pending Hone 0%nat)
    as Hloop.
  unfold main.
  destruct (accept_loop decision lib (heuristic index) pending 0) as [log [| |e]];
    cbn in *; auto.
  now destruct (Hloop e).
Qed.

Lemma wired_server_survives_witness :
  (forall p e,
      In p [Peer [Chunk not_json_line] []; Peer [RecvFails] [true]] ->
      fst (serve decision sample_library (heuristic true) p) <> Raised e)
  /\ (snd (main decision sample_library (heuristic true)
             [Peer [Chunk not_json_line] []; Peer [RecvFails] [true]]) = Serving
      \/ snd (main decision sample_library (heuristic true)
                [Peer [Chunk not_json_line] []; Peer [RecvFails] [true]]) = Stuck).
Proof.
  apply wired_server_survives. reflexivity.
Defined.

(** X18: the choice of [--model] changes nothing in what is served.  When
    the VPT model loads, and when loading it fails with an error derived
    from [Exception], the server runs as with [--model heuristic], on the
    heuristic policy; an error that does not derive from [Exception] while
    loading ends [main] before it listens. *)
Theorem model_option_has_no_effect
    {Model : Type} (lib : library decision) (attempt : result Model)
    (index : bool) (pending : list peer) :
  run lib ChoseHeuristic attempt index pending
  = Ret (main decision lib (heuristic index) pending)
  /\ ((forall e, attempt = Raise e -> is_Exception e = true) ->
      run lib ChoseVpt attempt index pending
      = run lib ChoseHeuristic attempt index pending)
  /\ (forall e, attempt = Raise e -> is_Exception e = false ->
                run lib ChoseVpt attempt index pending = Raise e).
Proof.
  unfold run, choose_policy, load_vpt_model. split; [reflexivity|]. split.
  - intros H. destruct attempt as [model|e]; [reflexivity|].
    rewrite (H e eq_refl). reflexivity.
  - intros e -> He. rewrite He. reflexivity.
Qed.

Lemma model_option_has_no_effect_witness :
  run sample_library ChoseVpt (@Raise unit (UserError "ImportError")) false
    [Peer [Chunk empty_record_line] []]
  = run sample_library ChoseHeuristic (@Raise unit (UserError "ImportError")) false
      [Peer [Chunk empty_record_line] []]
  /\ run sample_library ChoseVpt (@Raise unit KeyboardInterrupt) false
       [Peer [Chunk empty_record_line] []]
     = Raise KeyboardInterrupt.
Proof.
  split.
  - apply (proj1 (proj2 (model_option_has_no_effect
                           sample_library (@Raise unit (UserError "ImportError"))
                           false [Peer [Chunk empty_record_line] []]))).
    intros e H. injection H as <-. reflexivity.
  - apply (proj2 (proj2 (model_option_has_no_effect
                           sample_library (@Raise unit KeyboardInterrupt)
                           false [Peer [Chunk empty_record_line] []]))
             KeyboardInterrupt); reflexivity.
Defined.
